(** * macro_analysis: loader, aggregator, reporter and command line

    A shallow embedding of [src/macro_analysis.py].  Python values are
    modelled as the program uses them:

    - a [dict] is an insertion-ordered association list with unique keys
      ([PyDict]);
    - a [float] is an IEEE binary64 value, taken from the standard
      library's [SpecFloat] with precision 53 and maximal exponent 1024;
    - an exception is a value of [exn]; a computation that may raise
      returns a [result]; code that opens files or prints runs in [io],
      which threads the trace of events;
    - a file is given by what [csv.reader] yields from it: a [csv_file] is
      the list of its records and the way the iteration ends;
      [csv_reader] computes it from the text of the file. *)

From Stdlib Require Import Bool List String Ascii ZArith Lia.
From Stdlib Require Import Permutation DecimalString SpecFloat.
Import ListNotations.
Local Open Scope string_scope.

(** ** Exceptions and results *)

(** The exception classes the program raises or catches.  [Exception]
    stands for any other subclass of Python's [Exception];
    [KeyboardInterrupt] and [SystemExit] derive from [BaseException] only,
    so an [except Exception] clause lets them through. *)
Inductive exn : Type :=
| FileNotFoundError (msg : string)
| ValueError (msg : string)
| csv_Error (msg : string)
| Exception (msg : string)
| KeyboardInterrupt
| SystemExit (code : Z).

(** [isinstance(e, Exception)] *)
Definition is_Exception (e : exn) : bool :=
  match e with
  | KeyboardInterrupt | SystemExit _ => false
  | _ => true
  end.

(** [str(e)] for the classes that carry a message. *)
Definition str_exn (e : exn) : string :=
  match e with
  | FileNotFoundError m | ValueError m | csv_Error m | Exception m => m
  | KeyboardInterrupt => EmptyString
  | SystemExit c => NilZero.string_of_int (Z.to_int c)
  end.

Inductive result (A : Type) : Type :=
| Ok (a : A)
| Raise (e : exn).
Arguments Ok {A} a.
Arguments Raise {A} e.

Definition bind {A B : Type} (r : result A) (k : A -> result B) : result B :=
  match r with
  | Ok a => k a
  | Raise e => Raise e
  end.

Notation "'let?' x ':=' r 'in' k" := (bind r (fun x => k))
  (at level 10, x name, r at level 100, k at level 200).

(** ** Strings *)

Definition nl : string := String (ascii_of_nat 10) EmptyString.

(** [sep.join(parts)] *)
Definition join (sep : string) (parts : list string) : string :=
  String.concat sep parts.

(** [str(n)] for a non-negative integer. *)
Definition str_nat (n : nat) : string := NilZero.string_of_uint (Nat.to_uint n).

(** [needle in text] as a proposition. *)
Definition substring_of (needle text : string) : Prop :=
  exists pre post, text = pre ++ needle ++ post.

(** ** Python dictionaries *)

Module PyDict.
Section Dict.
Context {K V : Type}.
Variable eqb : K -> K -> bool.

Definition dict : Type := list (K * V).

(** [d.get(k)] *)
Fixpoint get (d : dict) (k : K) : option V :=
  match d with
  | [] => None
  | (k', v) :: d' => if eqb k k' then Some v else get d' k
  end.

(** [k in d] *)
Definition contains (d : dict) (k : K) : bool :=
  match get d k with Some _ => true | None => false end.

(** [d[k] = v]: an existing key keeps its position. *)
Fixpoint set (d : dict) (k : K) (v : V) : dict :=
  match d with
  | [] => [(k, v)]
  | (k', v') :: d' =>
      if eqb k k' then (k', v) :: d' else (k', v') :: set d' k v
  end.

Definition keys (d : dict) : list K := map fst d.
Definition values (d : dict) : list V := map snd d.
End Dict.
End PyDict.

(** ** Cells and rows *)

(** The value bound to a column of a row, or used as a country key: a
    string, or [None] (what [csv.DictReader] binds to a column the record
    did not reach). *)
Inductive cell : Type :=
| Str (s : string)
| PyNone.

Definition cell_eqb (a b : cell) : bool :=
  match a, b with
  | Str s, Str t => String.eqb s t
  | PyNone, PyNone => true
  | _, _ => false
  end.

(** [str(v)], as an f-string renders it. *)
Definition py_str (v : cell) : string :=
  match v with
  | Str s => s
  | PyNone => "None"
  end.

(** A row is the dictionary [csv.DictReader] yields: the header's names
    bound to cells, and under the key [None] (the reader's [restkey]) the
    list of the fields a record has beyond the header, when it has any. *)
Record row : Type := mkRow {
  named : PyDict.dict (K := string) (V := cell);
  restkey : option (list string)
}.

(** [name in row] and [row.get(name)] for a column name. *)
Definition row_contains (r : row) (name : string) : bool :=
  PyDict.contains String.eqb (named r) name.
Definition row_get (r : row) (name : string) : option cell :=
  PyDict.get String.eqb (named r) name.

(** ** Floats *)

Definition float : Type := spec_float.
Definition prec : Z := 53.
Definition emax : Z := 1024.

Definition fadd : float -> float -> float := SFadd prec emax.
Definition fdiv : float -> float -> float := SFdiv prec emax.
Definition flt : float -> float -> bool := SFltb.
Definition fle : float -> float -> bool := SFleb.
Definition feq : float -> float -> bool := SFeqb.

(** [float(n)] for an integer. *)
Definition float_of_Z (n : Z) : float := binary_normalize prec emax n 0 false.

(** [sum(xs)]: the items added from left to right to the start value 0.
    (CPython 3.12 and later compensate the rounding error of the partial
    sums; nothing below depends on the rounding of a sum.) *)
Definition py_sum (xs : list float) : float :=
  fold_left fadd xs (S754_zero false).

(** [x / n] for a float and an integer. *)
Definition truediv (x : float) (n : nat) : result float :=
  match n with
  | O => Raise (Exception "float division by zero")
  | S _ => Ok (fdiv x (float_of_Z (Z.of_nat n)))
  end.

(** *** [float(s)]

    The characters of the string are read as ASCII: white space is
    stripped at both ends, an underscore may stand between two digits, and
    what is left is a sign followed by [inf], [infinity], [nan] (in any
    case) or by a decimal numeral with an optional exponent.  The value is
    the binary64 nearest to the numeral.  Digits and spaces outside ASCII,
    which Python also accepts, are not distinguished from other
    characters. *)

Definition is_space (c : ascii) : bool :=
  let n := nat_of_ascii c in
  ((9 <=? n) && (n <=? 13) || (n =? 32))%nat.

Definition is_digit (c : ascii) : bool :=
  let n := nat_of_ascii c in ((48 <=? n) && (n <=? 57))%nat.

Definition digit_val (c : ascii) : Z := Z.of_nat (nat_of_ascii c - 48).

Definition lower (c : ascii) : ascii :=
  let n := nat_of_ascii c in
  if ((65 <=? n) && (n <=? 90))%nat then ascii_of_nat (n + 32) else c.

Definition is_underscore (c : ascii) : bool := Ascii.eqb c "_".

Fixpoint lstrip (l : list ascii) : list ascii :=
  match l with
  | c :: l' => if is_space c then lstrip l' else l
  | [] => []
  end.

Definition strip (l : list ascii) : list ascii :=
  rev (lstrip (rev (lstrip l))).

(** An underscore is dropped when it follows a digit and precedes one;
    any other underscore makes the numeral invalid. *)
Fixpoint drop_underscores (prev : option ascii) (l : list ascii)
  : option (list ascii) :=
  match l with
  | [] =>
      match prev with
      | Some p => if is_underscore p then None else Some []
      | None => Some []
      end
  | c :: l' =>
      if is_underscore c then
        match prev with
        | Some p => if is_digit p then drop_underscores (Some c) l' else None
        | None => None
        end
      else
        let after_underscore :=
          match prev with Some p => is_underscore p | None => false end in
        if after_underscore && negb (is_digit c) then None
        else option_map (cons c) (drop_underscores (Some c) l')
  end.

Definition parse_sign (l : list ascii) : bool * list ascii :=
  match l with
  | c :: l' =>
      if Ascii.eqb c "-" then (true, l')
      else if Ascii.eqb c "+" then (false, l')
      else (false, l)
  | [] => (false, [])
  end.

Fixpoint span_digits (l : list ascii) : list ascii * list ascii :=
  match l with
  | c :: l' =>
      if is_digit c
      then let (ds, tl) := span_digits l' in (c :: ds, tl)
      else ([], l)
  | [] => ([], [])
  end.

Definition digits_value (ds : list ascii) : Z :=
  fold_left (fun acc c => 10 * acc + digit_val c)%Z ds 0%Z.

(** The binary64 nearest to [(-1)^s * m * 10^e]. *)
Definition decimal_to_float (s : bool) (m e : Z) : float :=
  match m with
  | Zpos p =>
      if (0 <=? e)%Z
      then binary_normalize prec emax (cond_Zopp s (m * 10 ^ e)) 0 s
      else fdiv (S754_finite s p 0)
                (S754_finite false (Z.to_pos (10 ^ (- e))) 0)
  | _ => S754_zero s
  end.

Definition parse_inf_nan (s : bool) (l : list ascii) : option float :=
  let w := string_of_list_ascii (map lower l) in
  if String.eqb w "inf" || String.eqb w "infinity" then Some (S754_infinity s)
  else if String.eqb w "nan" then Some S754_nan
  else None.

(** The exponent part: absent, or [e], an optional sign and digits. *)
Definition parse_exponent (l : list ascii) : option Z :=
  match l with
  | [] => Some 0%Z
  | c :: l' =>
      if Ascii.eqb (lower c) "e" then
        let (neg, l'') := parse_sign l' in
        match span_digits l'' with
        | ((_ :: _) as ds, []) => Some (cond_Zopp neg (digits_value ds))
        | _ => None
        end
      else None
  end.

Definition parse_decimal (s : bool) (l : list ascii) : option float :=
  let (ip, l1) := span_digits l in
  let (fp, l2) :=
    match l1 with
    | c :: l1' => if Ascii.eqb c "." then span_digits l1' else ([], l1)
    | [] => ([], [])
    end in
  match (ip ++ fp)%list with
  | [] => None
  | ds =>
      match parse_exponent l2 with
      | Some e =>
          Some (decimal_to_float s (digits_value ds) (e - Z.of_nat (List.length fp)))
      | None => None
      end
  end.

Definition float_of_string (text : string) : option float :=
  match drop_underscores None (strip (list_ascii_of_string text)) with
  | None => None
  | Some l =>
      let (s, body) := parse_sign l in
      match parse_inf_nan s body with
      | Some x => Some x
      | None => parse_decimal s body
      end
  end.

(** [float(v)]: [None] stands for the [ValueError] of a string that is not
    a numeral and for the [TypeError] of [float(None)]. *)
Definition py_float (v : cell) : option float :=
  match v with
  | Str s => float_of_string s
  | PyNone => None
  end.

(** *** [f"{x:.2f}"] *)

(** [m * 2^e * 100] rounded to the nearest integer, ties to even. *)
Definition round_hundredths (m : positive) (e : Z) : Z :=
  let n := (Zpos m * 100)%Z in
  if (0 <=? e)%Z then (n * 2 ^ e)%Z
  else
    let d := (2 ^ (- e))%Z in
    let q := (n / d)%Z in
    let r := (n mod d)%Z in
    match (2 * r ?= d)%Z with
    | Lt => q
    | Gt => (q + 1)%Z
    | Eq => if Z.even q then q else (q + 1)%Z
    end.

Definition digit_char (d : Z) : ascii := ascii_of_nat (48 + Z.to_nat d).

Definition str_Z (n : Z) : string := NilZero.string_of_uint (N.to_uint (Z.to_N n)).

(** The digits of [n] hundredths: integer part, point, two digits. *)
Definition fixed2 (n : Z) : string :=
  str_Z (n / 100) ++ "."
    ++ String (digit_char ((n / 10) mod 10))
         (String (digit_char (n mod 10)) EmptyString).

Definition sign_str (s : bool) : string := if s then "-" else EmptyString.

Definition format_2f (x : float) : string :=
  match x with
  | S754_nan => "nan"
  | S754_infinity s => sign_str s ++ "inf"
  | S754_zero s => sign_str s ++ fixed2 0
  | S754_finite s m e => sign_str s ++ fixed2 (round_hundredths m e)
  end.

(** [a] stands somewhere before [b] in the list. *)
Definition before {A : Type} (a b : A) (l : list A) : Prop :=
  exists l1 l2, l = (l1 ++ a :: l2)%list /\ In b l2.

(** ** Sorting

    [l.sort(key=..., reverse=True)].  Python documents the sort as stable,
    also under [reverse]: CPython reverses the list, sorts it in ascending
    order, an item going behind the items that are not greater, and
    reverses the result.  The model is this sort written as an insertion
    sort on the list as it stands: the items are inserted from the right,
    each one in front of the first item that is not greater than it.  On
    keys that [<] orders totally every stable sort returns the same list.
    Keys that [<] does not order (NaN) are compared as they are; where no
    item is less than its right neighbour the reversed list is one
    ascending run for CPython, which then moves nothing, and the model
    moves nothing either ([sort_reverse_unmoved]). *)

Section Sort.
Context {A : Type}.
Variable lt : A -> A -> bool.

Fixpoint insert_desc (x : A) (l : list A) : list A :=
  match l with
  | [] => [x]
  | y :: l' => if lt x y then y :: insert_desc x l' else x :: l
  end.

Definition sort_reverse (l : list A) : list A :=
  fold_right insert_desc [] l.

(** No item is less than an item that stands behind it. *)
Definition descending (l : list A) : Prop :=
  forall a b, before a b l -> lt a b = false.
End Sort.

(** ** The average-gdp reporter *)

Definition report_row : Type := (cell * float)%type.

(** [country_gdp[country].append(gdp)] on a [defaultdict(list)]: a new
    country enters behind the countries seen so far. *)
Definition append_gdp (country_gdp : PyDict.dict (K := cell) (V := list float))
    (country : cell) (gdp : float) : PyDict.dict :=
  match PyDict.get cell_eqb country_gdp country with
  | Some gdps => PyDict.set cell_eqb country_gdp country (gdps ++ [gdp])%list
  | None => (country_gdp ++ [(country, [gdp])])%list
  end.

Definition schema_message : string :=
  "CSV must contain 'country' and 'gdp' columns".

Definition invalid_message (raw : cell) : string :=
  "Invalid GDP value: " ++ py_str raw.

(** The loop over the rows of [generate]. *)
Fixpoint accumulate (data : list row)
    (country_gdp : PyDict.dict (K := cell) (V := list float))
  : result (PyDict.dict (K := cell) (V := list float)) :=
  match data with
  | [] => Ok country_gdp
  | r :: data' =>
      match row_get r "country", row_get r "gdp" with
      | Some country, Some raw =>
          match py_float raw with
          | Some gdp => accumulate data' (append_gdp country_gdp country gdp)
          | None => Raise (ValueError (invalid_message raw))
          end
      | _, _ => Raise (ValueError schema_message)
      end
  end.

(** The loop over [country_gdp.items()]. *)
Fixpoint averages (items : list (cell * list float)) : result (list report_row) :=
  match items with
  | [] => Ok []
  | (country, gdps) :: items' =>
      let? avg_gdp := truediv (py_sum gdps) (List.length gdps) in
      let? rest := averages items' in
      Ok ((country, avg_gdp) :: rest)
  end.

Definition generate (data : list row) : result (list report_row) :=
  let? country_gdp := accumulate data [] in
  let? avgs := averages country_gdp in
  Ok (sort_reverse (fun x y => flt (snd x) (snd y)) avgs).

Definition headers : list string := ["Country"; "Average GDP (billions USD)"].

Definition table_data (report_data : list report_row) : list (cell * string) :=
  map (fun '(country, avg_gdp) => (country, format_2f avg_gdp)) report_data.

(** ** Reading files *)

(** A file after [csv.reader]: the records the reader yields, and how its
    iteration ends, with [StopIteration] ([None]) or with an exception. *)
Record csv_file : Type := mkCsv {
  records : list (list string);
  ending : option exn
}.

(** *** The text of a file

    [csv.reader] with the default dialect (delimiter [,], quote character
    the double quote, a doubled quote standing for a quote, not strict):
    the states and transitions are those of CPython's reader.  The file is
    opened in text mode, so every line break reaches the reader as a line
    feed, and the reader is fed line by line. *)

Definition LF : ascii := ascii_of_nat 10.
Definition CR : ascii := ascii_of_nat 13.
Definition quotechar : ascii := ascii_of_nat 34.
Definition delimiter : ascii := ascii_of_nat 44.
Definition field_limit : N := 131072.

Fixpoint universal_newlines (l : list ascii) : list ascii :=
  match l with
  | [] => []
  | c :: l' =>
      if Ascii.eqb c CR then
        match l' with
        | d :: l'' =>
            if Ascii.eqb d LF then LF :: universal_newlines l''
            else LF :: universal_newlines l'
        | [] => [LF]
        end
      else c :: universal_newlines l'
  end.

(** The lines of the text, each with its line feed. *)
Fixpoint split_lines (cur : list ascii) (l : list ascii) : list (list ascii) :=
  match l with
  | [] => match cur with [] => [] | _ => [rev cur] end
  | c :: l' =>
      if Ascii.eqb c LF then rev (c :: cur) :: split_lines [] l'
      else split_lines (c :: cur) l'
  end.

Inductive reader_state : Type :=
| START_RECORD
| START_FIELD
| IN_FIELD
| IN_QUOTED_FIELD
| QUOTE_IN_QUOTED_FIELD
| EAT_CRNL.

(** The reader: its state, the field being read and the fields of the
    record so far, both latest first. *)
Record parser : Type := mkParser {
  state : reader_state;
  field : list ascii;
  fields : list string
}.

Definition parse_reset : parser := mkParser START_RECORD [] [].

Definition parse_save_field (p : parser) (st : reader_state) : parser :=
  mkParser st [] (string_of_list_ascii (rev (field p)) :: fields p).

Definition parse_add_char (p : parser) (st : reader_state) (c : ascii)
  : result parser :=
  if (field_limit <=? N.of_nat (List.length (field p)))%N
  then Raise (csv_Error "field larger than field limit (131072)")
  else Ok (mkParser st (c :: field p) (fields p)).

Definition is_newline (c : ascii) : bool := Ascii.eqb c LF || Ascii.eqb c CR.

Definition new_line_message : string :=
  "new-line character seen in unquoted field - "
    ++ "do you need to open the file with newline=''?".

(** One character of a line, or the end of the line ([None]). *)
Definition parse_process_char (p : parser) (c : option ascii) : result parser :=
  let start_field (p : parser) :=
    match c with
    | None => Ok (parse_save_field p START_RECORD)
    | Some ch =>
        if is_newline ch then Ok (parse_save_field p EAT_CRNL)
        else if Ascii.eqb ch quotechar
        then Ok (mkParser IN_QUOTED_FIELD (field p) (fields p))
        else if Ascii.eqb ch delimiter then Ok (parse_save_field p START_FIELD)
        else parse_add_char p IN_FIELD ch
    end in
  match state p with
  | START_RECORD =>
      match c with
      | None => Ok p
      | Some ch =>
          if is_newline ch then Ok (mkParser EAT_CRNL (field p) (fields p))
          else start_field p
      end
  | START_FIELD => start_field p
  | IN_FIELD =>
      match c with
      | None => Ok (parse_save_field p START_RECORD)
      | Some ch =>
          if is_newline ch then Ok (parse_save_field p EAT_CRNL)
          else if Ascii.eqb ch delimiter then Ok (parse_save_field p START_FIELD)
          else parse_add_char p IN_FIELD ch
      end
  | IN_QUOTED_FIELD =>
      match c with
      | None => Ok p
      | Some ch =>
          if Ascii.eqb ch quotechar
          then Ok (mkParser QUOTE_IN_QUOTED_FIELD (field p) (fields p))
          else parse_add_char p IN_QUOTED_FIELD ch
      end
  | QUOTE_IN_QUOTED_FIELD =>
      match c with
      | None => Ok (parse_save_field p START_RECORD)
      | Some ch =>
          if Ascii.eqb ch quotechar then parse_add_char p IN_QUOTED_FIELD ch
          else if Ascii.eqb ch delimiter then Ok (parse_save_field p START_FIELD)
          else if is_newline ch then Ok (parse_save_field p EAT_CRNL)
          else parse_add_char p IN_FIELD ch
      end
  | EAT_CRNL =>
      match c with
      | None => Ok (mkParser START_RECORD (field p) (fields p))
      | Some ch =>
          if is_newline ch then Ok p
          else Raise (csv_Error new_line_message)
      end
  end.

Fixpoint parse_line (p : parser) (line : list ascii) : result parser :=
  match line with
  | [] => parse_process_char p None
  | ch :: line' =>
      let? p' := parse_process_char p (Some ch) in
      parse_line p' line'
  end.

(** The records of the lines.  A record ends with the line on which the
    reader is back at the start of a record; input that ends inside a
    quoted field gives the record read so far. *)
Fixpoint read_records (p : parser) (lines : list (list ascii)) : csv_file :=
  match lines with
  | [] =>
      match state p, field p with
      | IN_QUOTED_FIELD, _ | _, _ :: _ =>
          mkCsv [rev (fields (parse_save_field p START_RECORD))] None
      | _, [] => mkCsv [] None
      end
  | line :: lines' =>
      match parse_line p line with
      | Raise e => mkCsv [] (Some e)
      | Ok p' =>
          match state p' with
          | START_RECORD =>
              let rest := read_records parse_reset lines' in
              mkCsv (rev (fields p') :: records rest) (ending rest)
          | _ => read_records p' lines'
          end
      end
  end.

(** [csv.reader(f)] on the text of a file. *)
Definition csv_reader (text : string) : csv_file :=
  read_records parse_reset
    (split_lines [] (universal_newlines (list_ascii_of_string text))).

(** What [open(path)] does. *)
Inductive opened : Type :=
| OpenRaises (e : exn)
| Opens (f : csv_file).

Inductive event : Type :=
| EvOpen (path : string)
| EvStdout (text : string)
| EvStderr (text : string).

(** A computation that opens files and prints: it extends the trace of
    events and returns or raises. *)
Definition io (A : Type) : Type := list event -> result A * list event.

Definition ret {A : Type} (a : A) : io A := fun t => (Ok a, t).
Definition raise {A : Type} (e : exn) : io A := fun t => (Raise e, t).
Definition lift {A : Type} (r : result A) : io A := fun t => (r, t).
Definition emit (ev : event) : io unit := fun t => (Ok tt, (t ++ [ev])%list).

Definition io_bind {A B : Type} (m : io A) (k : A -> io B) : io B :=
  fun t =>
    match m t with
    | (Ok a, t') => k a t'
    | (Raise e, t') => (Raise e, t')
    end.

(** [try: m  except ...: handler] where [handler] re-raises what it does
    not catch. *)
Definition try_except {A : Type} (m : io A) (handler : exn -> io A) : io A :=
  fun t =>
    match m t with
    | (Ok a, t') => (Ok a, t')
    | (Raise e, t') => handler e t'
    end.

Notation "x <- m ;; k" := (io_bind m (fun x => k))
  (at level 61, m at next level, right associativity).
Notation "m ;;; k" := (io_bind m (fun _ => k))
  (at level 61, right associativity).

(** [dict(zip(fieldnames, record))] *)
Definition dict_zip (fieldnames record : list string) : PyDict.dict :=
  fold_left (fun d '(k, v) => PyDict.set String.eqb d k (Str v))
            (combine fieldnames record) [].

(** The dictionary [csv.DictReader.__next__] builds from a record: fields
    beyond the header go under [restkey]; header names beyond the record
    are bound to [restval], which is [None]. *)
Definition make_row (fieldnames record : list string) : row :=
  let d := dict_zip fieldnames record in
  let lf := List.length fieldnames in
  let lr := List.length record in
  if (lf <? lr)%nat then mkRow d (Some (skipn lf record))
  else if (lr <? lf)%nat then
    mkRow (fold_left (fun d key => PyDict.set String.eqb d key PyNone)
                     (skipn lr fieldnames) d) None
  else mkRow d None.

(** [reader.fieldnames]: the first record, or [None] at the end of the
    input. *)
Definition fieldnames_of (f : csv_file) : result (option (list string)) :=
  match records f, ending f with
  | names :: _, _ => Ok (Some names)
  | [], None => Ok None
  | [], Some e => Raise e
  end.

(** [all(v == '' for v in row.values())] *)
Definition cell_is_empty (v : cell) : bool :=
  match v with
  | Str s => String.eqb s EmptyString
  | PyNone => false
  end.

Definition all_empty (r : row) : bool :=
  forallb cell_is_empty (PyDict.values (named r))
  && match restkey r with Some _ => false | None => true end.

(** The loop of [read_csv_file] over the reader.  [csv.DictReader] itself
    passes over a record without fields (a blank line). *)
Fixpoint read_rows (fieldnames : list string) (recs : list (list string))
    (end_ : option exn) (data : list row) : result (list row) :=
  match recs with
  | [] =>
      match end_ with
      | None => Ok data
      | Some e => Raise e
      end
  | [] :: recs' => read_rows fieldnames recs' end_ data
  | record :: recs' =>
      let r := make_row fieldnames record in
      if all_empty r then read_rows fieldnames recs' end_ data
      else read_rows fieldnames recs' end_ (data ++ [r])%list
  end.

Definition no_headers_message (filepath : string) : string :=
  "CSV file '" ++ filepath ++ "' has no headers".
Definition parse_error_message (filepath msg : string) : string :=
  "Error parsing CSV file '" ++ filepath ++ "': " ++ msg.
Definition no_data_message (filepath : string) : string :=
  "No data found in file '" ++ filepath ++ "'".

(** The body of the [with] statement. *)
Definition read_opened (filepath : string) (f : csv_file) : result (list row) :=
  let? names := fieldnames_of f in
  match names with
  | None | Some [] => Raise (ValueError (no_headers_message filepath))
  | Some fieldnames =>
      read_rows fieldnames (tl (records f)) (ending f) []
  end.

Definition not_found_message (filepath : string) : string :=
  "File not found: " ++ filepath.
Definition read_error_message (filepath : string) (e : exn) : string :=
  "Error reading " ++ filepath ++ ": " ++ str_exn e.

Section Files.
(** The file system: what opening each path gives. *)
Variable fs : string -> opened.

Definition open (filepath : string) : io csv_file :=
  emit (EvOpen filepath) ;;;
  match fs filepath with
  | OpenRaises e => raise e
  | Opens f => ret f
  end.

Definition read_csv_file (filepath : string) : io (list row) :=
  data <- try_except
            (f <- open filepath ;; lift (read_opened filepath f))
            (fun e =>
               match e with
               | csv_Error msg =>
                   raise (ValueError (parse_error_message filepath msg))
               | _ => raise e
               end) ;;
  match data with
  | [] => raise (ValueError (no_data_message filepath))
  | _ => ret data
  end.

(** The loop of [read_csv_files]; [all_data] and [errors] are the two
    lists it extends. *)
Fixpoint read_each (filepaths : list string) (all_data : list row)
    (errors : list string) : io (list row * list string) :=
  match filepaths with
  | [] => ret (all_data, errors)
  | filepath :: rest =>
      st <- try_except
              (file_data <- read_csv_file filepath ;;
               ret ((all_data ++ file_data)%list, errors))
              (fun e =>
                 match e with
                 | FileNotFoundError _ =>
                     ret (all_data, (errors ++ [not_found_message filepath])%list)
                 | _ =>
                     if is_Exception e then
                       ret (all_data,
                            (errors ++ [read_error_message filepath e])%list)
                     else raise e
                 end) ;;
      read_each rest (fst st) (snd st)
  end.

Definition read_csv_files (filepaths : list string) : io (list row) :=
  st <- read_each filepaths [] [] ;;
  match snd st with
  | [] => ret (fst st)
  | errors => raise (ValueError (join nl errors))
  end.
End Files.

(** ** Reporters, their registry and the command line *)

(** [BaseReporter]: the two operations every reporter has. *)
Record BaseReporter : Type := mkReporter {
  report_data : Type;
  reporter_generate : list row -> result report_data;
  reporter_format : report_data -> string
}.

Record namespace : Type := mkArgs {
  files : list string;
  report : string
}.

(** What [parser.parse_args()] comes to. *)
Inductive parsed : Type :=
| Parsed (args : namespace)
| UsageError (message : string)
| HelpRequested.

(** The option whose values the parser is collecting. *)
Inductive collecting : Type :=
| Top
| InFiles (vals : list string)
| InReport.

Definition is_option_string (a : string) : bool := prefix "-" a.

Definition quoted (s : string) : string := "'" ++ s ++ "'".

Definition invalid_choice_message (choices : list string) (a : string) : string :=
  "argument --report: invalid choice: " ++ quoted a
    ++ " (choose from " ++ join ", " (map quoted choices) ++ ")".

Definition required_message (fs_ : option (list string)) (rp : option string)
  : string :=
  "the following arguments are required: "
    ++ join ", " ((match fs_ with None => ["--files"] | Some _ => [] end)
                  ++ (match rp with None => ["--report"] | Some _ => [] end))%list.

(** The end of the scan: the required options first, then the arguments
    no option took. *)
Definition finish (fs_ : option (list string)) (rp : option string)
    (extras : list string) : parsed :=
  match fs_, rp with
  | Some f, Some r =>
      match extras with
      | [] => Parsed (mkArgs f r)
      | _ => UsageError ("unrecognized arguments: " ++ join " " extras)
      end
  | _, _ => UsageError (required_message fs_ rp)
  end.

(** [argparse] on the two options the program declares, [--files] with
    [nargs="+"] and [--report] with [choices], both required, and on the
    [-h]/[--help] it adds.  An argument that starts with [-] is an option
    string; option strings are matched in full (abbreviations, the
    [--name=value] form, and a value that starts with [-], such as a lone
    [-] or a negative number, are not modelled).  An option with a missing or
    invalid value and a request for help end the scan at once; arguments
    that no option takes are set aside and reported at the end.  Every
    usage error ends the process with status 2.  The usage line is the one
    [argparse] derives from the two declarations, unwrapped; the program
    name is shown as [sys.argv] gives it, and the help text is cut to the
    usage line. *)
Fixpoint parse_tokens (choices : list string) (args : list string)
    (fs_ : option (list string)) (rp : option string) (c : collecting)
    (extras : list string) : parsed :=
  match args with
  | [] =>
      match c with
      | Top => finish fs_ rp extras
      | InFiles [] => UsageError "argument --files: expected at least one argument"
      | InFiles vals => finish (Some vals) rp extras
      | InReport => UsageError "argument --report: expected one argument"
      end
  | a :: args' =>
      if is_option_string a then
        match c with
        | InFiles [] => UsageError "argument --files: expected at least one argument"
        | InReport => UsageError "argument --report: expected one argument"
        | _ =>
            let fs' := match c with InFiles vals => Some vals | _ => fs_ end in
            if String.eqb a "--files"
            then parse_tokens choices args' fs' rp (InFiles []) extras
            else if String.eqb a "--report"
            then parse_tokens choices args' fs' rp InReport extras
            else if String.eqb a "-h" || String.eqb a "--help" then HelpRequested
            else parse_tokens choices args' fs' rp Top (extras ++ [a])%list
        end
      else
        match c with
        | Top => parse_tokens choices args' fs_ rp Top (extras ++ [a])%list
        | InFiles vals =>
            parse_tokens choices args' fs_ rp (InFiles (vals ++ [a])%list) extras
        | InReport =>
            if existsb (String.eqb a) choices
            then parse_tokens choices args' fs_ (Some a) Top extras
            else UsageError (invalid_choice_message choices a)
        end
  end.

(** [parser.parse_args()] on the arguments of the command line. *)
Definition parse_args (choices : list string) (args : list string) : parsed :=
  parse_tokens choices args None None Top [].

Definition usage (prog : string) (choices : list string) : string :=
  "usage: " ++ prog ++ " [-h] --files FILES [FILES ...] --report {"
    ++ join "," choices ++ "}" ++ nl.

(** [print(text)] and [print(text, file=sys.stderr)] *)
Definition print (text : string) : io unit := emit (EvStdout (text ++ nl)).
Definition print_err (text : string) : io unit := emit (EvStderr (text ++ nl)).

Definition sys_exit {A : Type} (code : Z) : io A := raise (SystemExit code).

Definition unknown_report_message (name : string) (names : list string) : string :=
  "Unknown report '" ++ name ++ "'. Available reports: " ++ join ", " names.

Section Cli.
(** [tabulate.tabulate], the table renderer of the library the program
    imports: it is given the rows, the headers and the table format. *)
Variable tabulate : list (cell * string) -> list string -> string -> string.
Variable fs : string -> opened.

Definition format (rd : list report_row) : string :=
  tabulate (table_data rd) headers "grid".

Definition AverageGDPReporter : BaseReporter :=
  mkReporter (list report_row) generate format.

(** [ReporterFactory.register(name)] applied to a class: the class is
    entered in the registry under the name. *)
Definition register (name : string) (reporter_class : BaseReporter)
    (reporters : PyDict.dict (K := string) (V := BaseReporter)) : PyDict.dict :=
  PyDict.set String.eqb reporters name reporter_class.

(** [ReporterFactory._reporters] once the module is loaded: the one
    decorated class is registered. *)
Definition _reporters : PyDict.dict (K := string) (V := BaseReporter) :=
  register "average-gdp" AverageGDPReporter [].

Definition create (name : string) : result BaseReporter :=
  match PyDict.get String.eqb _reporters name with
  | Some reporter_class => Ok reporter_class
  | None =>
      Raise (ValueError (unknown_report_message name (PyDict.keys _reporters)))
  end.

(** [sys.argv]: the program's name, then the arguments. *)
Definition parse_arguments (argv : list string) : io namespace :=
  let prog := hd EmptyString argv in
  let choices := PyDict.keys _reporters in
  match parse_args choices (tl argv) with
  | Parsed args => ret args
  | UsageError message =>
      emit (EvStderr (usage prog choices)) ;;;
      emit (EvStderr (prog ++ ": error: " ++ message ++ nl)) ;;;
      sys_exit 2
  | HelpRequested =>
      emit (EvStdout (usage prog choices)) ;;;
      sys_exit 0
  end.

(** The [try] block of [main]. *)
Definition main_try (argv : list string) : io unit :=
  args <- parse_arguments argv ;;
  print_err ("Reading " ++ str_nat (List.length (files args)) ++ " file(s)...") ;;;
  data <- read_csv_files fs (files args) ;;
  print_err ("Loaded " ++ str_nat (List.length data) ++ " records") ;;;
  match data with
  | [] => print_err "No data found in the provided files." ;;; sys_exit 1
  | _ => ret tt
  end ;;;
  reporter <- lift (create (report args)) ;;
  rd <- lift (reporter_generate reporter data) ;;
  print (nl ++ reporter_format reporter rd).

Definition main (argv : list string) : io unit :=
  try_except (main_try argv)
    (fun e =>
       match e with
       | FileNotFoundError _ | ValueError _ =>
           print_err ("Error: " ++ str_exn e) ;;; sys_exit 1
       | KeyboardInterrupt =>
           print_err (nl ++ "Operation cancelled by user") ;;; sys_exit 130
       | SystemExit _ => raise e
       | csv_Error _ | Exception _ =>
           print_err ("Unexpected error: " ++ str_exn e) ;;; sys_exit 1
       end).

(** The status the process ends with. *)
Definition exit_status (r : result unit) : Z :=
  match r with
  | Ok _ => 0
  | Raise (SystemExit code) => code
  | Raise _ => 1
  end.

Definition run (argv : list string) : Z * list event :=
  let (r, t) := main argv [] in (exit_status r, t).
End Cli.


(** * Properties *)

(** ** Running the loader *)

(** What [read_csv_file] returns for a path, whatever the trace so far. *)
Definition load (fs : string -> opened) (filepath : string) : result (list row) :=
  fst (read_csv_file fs filepath []).

(** The line [read_csv_files] records for a path, when loading it fails. *)
Definition failure_message (fs : string -> opened) (filepath : string)
  : option string :=
  match load fs filepath with
  | Ok _ => None
  | Raise (FileNotFoundError _) => Some (not_found_message filepath)
  | Raise e => Some (read_error_message filepath e)
  end.

Definition rows_of (fs : string -> opened) (filepath : string) : list row :=
  match load fs filepath with
  | Ok data => data
  | Raise _ => []
  end.

Definition option_list {A : Type} (o : option A) : list A :=
  match o with Some a => [a] | None => [] end.

(** The rows [csv.DictReader] yields for the records after the header: a
    record without fields gives none. *)
Definition is_blank_record (record : list string) : bool :=
  match record with [] => true | _ => false end.

Definition dict_rows (fieldnames : list string) (recs : list (list string))
  : list row :=
  map (make_row fieldnames) (filter (fun r => negb (is_blank_record r)) recs).

(** The rows the loader keeps. *)
Definition kept_rows (fieldnames : list string) (recs : list (list string))
  : list row :=
  filter (fun r => negb (all_empty r)) (dict_rows fieldnames recs).

(** A row that [generate] takes in: both columns present, [gdp] a numeral. *)
Definition row_ok (r : row) : bool :=
  match row_get r "country", row_get r "gdp" with
  | Some _, Some raw =>
      match py_float raw with Some _ => true | None => false end
  | _, _ => false
  end.

(** A row without the [country] key or without the [gdp] key. *)
Definition lacks_column (r : row) : bool :=
  negb (row_contains r "country") || negb (row_contains r "gdp").

(** The exception a row makes [generate] raise, if any. *)
Definition row_error (r : row) : option exn :=
  match row_get r "country", row_get r "gdp" with
  | Some _, Some raw =>
      match py_float raw with
      | Some _ => None
      | None => Some (ValueError (invalid_message raw))
      end
  | _, _ => Some (ValueError schema_message)
  end.

Fixpoint first_error (data : list row) : option exn :=
  match data with
  | [] => None
  | r :: data' =>
      match row_error r with
      | Some e => Some e
      | None => first_error data'
      end
  end.

(** The countries of the rows, in the order of the data set. *)
Definition countries (data : list row) : list cell :=
  flat_map (fun r => option_list (row_get r "country")) data.

(** The [gdp] values of the rows of one country, in the order of the data
    set. *)
Definition gdps_of (country : cell) (data : list row) : list float :=
  flat_map (fun r =>
              match row_get r "country", row_get r "gdp" with
              | Some c, Some raw =>
                  if cell_eqb country c then option_list (py_float raw) else []
              | _, _ => []
              end) data.

(** The sum of the values divided by their number. *)
Definition mean (xs : list float) : float :=
  fdiv (py_sum xs) (float_of_Z (Z.of_nat (List.length xs))).

(** The first appearance of [a] precedes the first appearance of [b]. *)
Definition first_seen_before (a b : cell) (l : list cell) : Prop :=
  exists l1 l2,
    l = (l1 ++ a :: l2)%list /\ ~ In a l1 /\ ~ In b l1 /\ a <> b /\ In b l2.

(** The values a key of [country_gdp] is bound to, none for a new key. *)
Definition gdps_so_far (country_gdp : PyDict.dict (K := cell) (V := list float))
    (country : cell) : list float :=
  match PyDict.get cell_eqb country_gdp country with
  | Some gdps => gdps
  | None => []
  end.

(** The place of a float other than NaN in the order of the floats: its
    class, from minus infinity to plus infinity, then exponent and
    mantissa, negated below zero. *)
Definition float_key (x : float) : Z * Z * Z :=
  match x with
  | S754_infinity true => (-2, 0, 0)%Z
  | S754_finite true m e => (-1, - e, - Zpos m)%Z
  | S754_zero _ => (0, 0, 0)%Z
  | S754_nan => (0, 0, 0)%Z
  | S754_finite false m e => (1, e, Zpos m)%Z
  | S754_infinity false => (2, 0, 0)%Z
  end.

Definition key_lt (k k' : Z * Z * Z) : Prop :=
  let '(a, b, c) := k in
  let '(a', b', c') := k' in
  (a < a' \/ (a = a' /\ (b < b' \/ (b = b' /\ c < c'))))%Z.

Fixpoint all_digits (s : string) : bool :=
  match s with
  | EmptyString => true
  | String c s' => is_digit c && all_digits s'
  end.

(** The text is a sign or none, digits, a point and two digits. *)
Definition two_decimals (text : string) : Prop :=
  exists sign whole d1 d2,
    text = sign_str sign ++ whole ++ "." ++ String d1 (String d2 EmptyString)
    /\ whole <> EmptyString
    /\ all_digits whole = true
    /\ is_digit d1 = true
    /\ is_digit d2 = true.

Definition is_finite (x : float) : bool :=
  match x with
  | S754_zero _ | S754_finite _ _ _ => true
  | S754_infinity _ | S754_nan => false
  end.

Definition nonempty_values (d : PyDict.dict (K := cell) (V := list float)) : Prop :=
  forall c gdps, In (c, gdps) d -> gdps <> [].

(** What [read_csv_files] returns, and the events it adds to the trace. *)
Definition load_all (fs : string -> opened) (filepaths : list string)
  : result (list row) :=
  fst (read_csv_files fs filepaths []).

Definition opens_of (fs : string -> opened) (filepaths : list string)
  : list event :=
  snd (read_csv_files fs filepaths []).

Definition is_open (ev : event) : bool :=
  match ev with EvOpen _ => true | _ => false end.

Definition is_stdout (ev : event) : bool :=
  match ev with EvStdout _ => true | _ => false end.

(** What the run writes to standard output. *)
Definition stdout_of (trace : list event) : list event := filter is_stdout trace.

(** ** Sample data *)

Definition row_of (country gdp : string) : row :=
  mkRow [("country", Str country); ("gdp", Str gdp)] None.

(** The rows of the test [test_average_gdp_generate_basic]. *)
Definition basic_data : list row :=
  [row_of "USA" "25462"; row_of "USA" "23315";
   row_of "China" "17963"; row_of "China" "17734"].

Definition basic_report : list report_row :=
  Eval vm_compute in
    match generate basic_data with Ok rep => rep | Raise _ => [] end.

(** Three countries, the first and the last with the same average. *)
Definition tied_data : list row :=
  [row_of "A" "2"; row_of "B" "3"; row_of "C" "2"].

Definition tied_report : list report_row :=
  Eval vm_compute in
    match generate tied_data with Ok rep => rep | Raise _ => [] end.

(** A file system with one file, [a.csv]: a header, a row of empty cells,
    a full row and a row whose [gdp] cell is empty. *)
Definition sample_text : string :=
  "country,gdp" ++ nl ++ "," ++ nl ++ "US,1" ++ nl ++ "X," ++ nl.

Definition sample_fs (filepath : string) : opened :=
  if String.eqb filepath "a.csv" then Opens (csv_reader sample_text)
  else OpenRaises (FileNotFoundError "[Errno 2] No such file or directory").

(** A renderer that joins the cells of a line with bars. *)
Definition bars (table : list (cell * string)) (hs : list string)
    (tablefmt : string) : string :=
  join nl (join " | " hs
           :: map (fun '(c, text) => py_str c ++ " | " ++ text) table).

(** The rows of the integration test, with the columns [generate] does
    not read. *)
Definition wide_row (country year gdp growth : string) : row :=
  mkRow [("country", Str country); ("year", Str year); ("gdp", Str gdp);
         ("gdp_growth", Str growth)] None.

Definition wide_data : list row :=
  [wide_row "United States" "2023" "25462" "2.1";
   wide_row "United States" "2022" "23315" "2.1";
   wide_row "China" "2023" "17963" "5.2"].

Definition narrow_data : list row :=
  [row_of "United States" "25462"; row_of "United States" "23315";
   row_of "China" "17963"].

(** [ReporterFactory.create] on a registry in any state. *)
Definition create_in (reporters : PyDict.dict (K := string) (V := BaseReporter))
    (name : string) : result BaseReporter :=
  match PyDict.get String.eqb reporters name with
  | Some reporter_class => Ok reporter_class
  | None =>
      Raise (ValueError (unknown_report_message name (PyDict.keys reporters)))
  end.

(** The two columns [generate] reads are the same in both rows. *)
Definition same_columns (r r' : row) : Prop :=
  row_get r "country" = row_get r' "country"
  /\ row_get r "gdp" = row_get r' "gdp".

(** ** The table renderer

    [tabulate.tabulate(rows, headers=headers, tablefmt="grid")] of the
    library [tabulate] that the program imports, every other argument at
    its default, on the rows of two cells that [format] builds.  The
    library does not take a cell of text as it is: it finds the type of
    each column from its cells ([_column_type]), shows the cells of a
    column of numbers through [format(float(cell), "g")], aligns a column
    of numbers on the decimal point and a column of text to the left,
    makes a column two characters wider than its header at least, and
    draws the grid.  The model is for cells of one line of ASCII text
    without terminal control codes; widths are counted in characters of
    the string.  Where the library raises (a cell [True] or [False] in a
    column of numbers) the model shows the cell as it is. *)

Module Tabulate.

Inductive cell_type : Type := TNone | TBool | TInt | TFloat | TStr.

(** [int(text)] returns: white space stripped, a sign or none, then digits
    with single underscores between them. *)
Definition int_convertible (text : string) : bool :=
  match drop_underscores None (strip (list_ascii_of_string text)) with
  | None => false
  | Some l =>
      match span_digits (snd (parse_sign l)) with
      | (_ :: _, []) => true
      | _ => false
      end
  end.

Definition lower_string (text : string) : string :=
  string_of_list_ascii (map lower (list_ascii_of_string text)).

Definition _isbool (text : string) : bool :=
  String.eqb text "True" || String.eqb text "False".

Definition _isint (text : string) : bool := int_convertible text.

(** [float(text)] returns, and an infinite or NaN value is written as
    [inf], [-inf] or [nan]. *)
Definition _isnumber (text : string) : bool :=
  match float_of_string text with
  | None => false
  | Some x =>
      match x with
      | S754_infinity _ | S754_nan =>
          let w := lower_string text in
          String.eqb w "inf" || String.eqb w "-inf" || String.eqb w "nan"
      | _ => true
      end
  end.

Definition _type (v : cell) : cell_type :=
  match v with
  | PyNone => TNone
  | Str text =>
      if _isbool text then TBool
      else if _isint text then TInt
      else if _isnumber text then TFloat
      else TStr
  end.

Definition rank (ty : cell_type) : nat :=
  match ty with TNone => 0 | TBool => 1 | TInt => 2 | TFloat => 3 | TStr => 5 end.

Definition _more_generic (type1 type2 : cell_type) : cell_type :=
  if (rank type1 <? rank type2)%nat then type2 else type1.

Definition _column_type (cells : list cell) : cell_type :=
  fold_left _more_generic (map _type cells) TBool.

(** *** [format(x, "g")] *)

(** The number of decimal digits of a positive integer. *)
Definition decimal_digits (n : Z) : Z := Z.of_nat (String.length (str_Z n)).

(** [n / d] rounded to the nearest integer, ties to even. *)
Definition round_div (n d : Z) : Z :=
  let q := (n / d)%Z in
  let r := (n mod d)%Z in
  match (2 * r ?= d)%Z with
  | Lt => q
  | Gt => (q + 1)%Z
  | Eq => if Z.even q then q else (q + 1)%Z
  end.

(** [n / d * 10^k] rounded to the nearest integer. *)
Definition scaled (n d k : Z) : Z :=
  if (0 <=? k)%Z then round_div (n * 10 ^ k) d else round_div n (d * 10 ^ (- k)).

(** The decimal exponent of [n / d]: [10^x <= n / d < 10^(x + 1)]. *)
Definition decimal_exponent (n d : Z) : Z :=
  let k := (decimal_digits n - decimal_digits d)%Z in
  let reaches :=
    if (0 <=? k)%Z then (d * 10 ^ k <=? n)%Z else (d <=? n * 10 ^ (- k))%Z in
  if reaches then k else (k - 1)%Z.

(** The six significant digits of [n / d] and their decimal exponent. *)
Definition six_digits (n d : Z) : Z * Z :=
  let x := decimal_exponent n d in
  let q := scaled n d (5 - x) in
  if (q =? 1000000)%Z then (100000%Z, (x + 1)%Z) else (q, x).

Fixpoint zeros (n : nat) : string :=
  match n with O => EmptyString | S n' => String "0" (zeros n') end.

Fixpoint rstrip_zeros (l : list ascii) : list ascii :=
  match l with
  | [] => []
  | c :: l' =>
      match rstrip_zeros l' with
      | [] => if Ascii.eqb c "0" then [] else [c]
      | rest => c :: rest
      end
  end.

Definition fraction (digits : string) : string :=
  match rstrip_zeros (list_ascii_of_string digits) with
  | [] => EmptyString
  | l => "." ++ string_of_list_ascii l
  end.

Definition exponent_text (x : Z) : string :=
  let a := Z.abs x in
  (if (x <? 0)%Z then "-" else "+") ++ (if (a <? 10)%Z then "0" else EmptyString)
    ++ str_Z a.

(** The text of [q * 10^(x - 5)] for six digits [q]: fixed notation when
    [-4 <= x < 6], else an exponent; zeros at the end of the fraction are
    dropped, and the point with them. *)
Definition general (q x : Z) : string :=
  let ds := str_Z q in
  if ((-4 <=? x) && (x <? 6))%Z then
    if (0 <=? x)%Z then
      let n := Z.to_nat (x + 1) in
      substring 0 n ds ++ fraction (substring n (6 - n) ds)
    else "0" ++ fraction (zeros (Z.to_nat (- x - 1)) ++ ds)
  else substring 0 1 ds ++ fraction (substring 1 5 ds) ++ "e" ++ exponent_text x.

Definition format_g (x : float) : string :=
  match x with
  | S754_nan => "nan"
  | S754_infinity s => sign_str s ++ "inf"
  | S754_zero s => sign_str s ++ "0"
  | S754_finite s m e =>
      let (q, x) :=
        if (0 <=? e)%Z then six_digits (Zpos m * 2 ^ e) 1
        else six_digits (Zpos m) (2 ^ (- e)) in
      sign_str s ++ general q x
  end.

(** [_format(val, valtype, "g", "", "")]: the text of a cell in a column of
    the given type. *)
Definition _format (valtype : cell_type) (val : cell) : string :=
  match val with
  | PyNone => EmptyString
  | Str text =>
      match valtype with
      | TFloat =>
          match float_of_string text with
          | Some x => format_g x
          | None => text
          end
      | _ => text
      end
  end.

(** *** Alignment *)

(** [str.strip()] on ASCII text. *)
Definition is_str_space (c : ascii) : bool :=
  let n := nat_of_ascii c in
  ((9 <=? n) && (n <=? 13) || (28 <=? n) && (n <=? 32))%nat.

Fixpoint lstrip_str (l : list ascii) : list ascii :=
  match l with
  | c :: l' => if is_str_space c then lstrip_str l' else l
  | [] => []
  end.

Definition str_strip (text : string) : string :=
  string_of_list_ascii
    (rev (lstrip_str (rev (lstrip_str (list_ascii_of_string text))))).

Fixpoint spaces (n : nat) : string :=
  match n with O => EmptyString | S n' => String " " (spaces n') end.

Definition _padleft (width : nat) (s : string) : string :=
  spaces (width - String.length s) ++ s.

Definition _padright (width : nat) (s : string) : string :=
  s ++ spaces (width - String.length s).

(** The position of the last occurrence of [c]. *)
Fixpoint rfind (c : ascii) (text : string) : option nat :=
  match text with
  | EmptyString => None
  | String c' text' =>
      match rfind c text' with
      | Some pos => Some (S pos)
      | None => if Ascii.eqb c c' then Some 0 else None
      end
  end.

(** The number of characters after the decimal point, or after the [e] of
    a numeral without a point; -1 for an integer and for text. *)
Definition _afterpoint (text : string) : Z :=
  if _isnumber text then
    if _isint text then (-1)%Z
    else
      let pos :=
        match rfind "." text with
        | Some pos => Some pos
        | None => rfind "e" (lower_string text)
        end in
      match pos with
      | Some pos => (Z.of_nat (String.length text) - Z.of_nat pos - 1)%Z
      | None => (-1)%Z
      end
  else (-1)%Z.

Definition is_number_type (ty : cell_type) : bool :=
  match ty with TInt | TFloat => true | _ => false end.

Definition max_width (strings : list string) : nat :=
  list_max (map String.length strings).

(** [_align_column]: a column of numbers is aligned on the decimal point
    and to the right, a column of text is stripped and aligned to the
    left. *)
Definition _align_column (strings : list string) (numbers : bool)
    (minwidth : nat) : list string :=
  if numbers then
    let decimals := map _afterpoint strings in
    let maxdecimals := fold_right Z.max (-1)%Z decimals in
    let strings' :=
      map (fun s => s ++ spaces (Z.to_nat (maxdecimals - _afterpoint s))) strings in
    map (_padleft (Nat.max (max_width strings') minwidth)) strings'
  else
    let strings' := map str_strip strings in
    map (_padright (Nat.max (max_width strings') minwidth)) strings'.

Definition _align_header (header : string) (numbers : bool) (width : nat)
  : string :=
  if numbers then _padleft width header else _padright width header.

(** *** The grid *)

Fixpoint repeat_string (fill : string) (n : nat) : string :=
  match n with O => EmptyString | S n' => fill ++ repeat_string fill n' end.

Definition _build_line (fill : string) (colwidths : list nat) : string :=
  "+" ++ join "+" (map (fun w => repeat_string fill (w + 2)) colwidths) ++ "+".

Definition _build_row (cells : list string) : string :=
  "|" ++ join "|" (map (fun c => " " ++ c ++ " ") cells) ++ "|".

(** The rows, with a line between two rows. *)
Fixpoint rows_between (line : string) (rows : list (list string)) : list string :=
  match rows with
  | [] => []
  | [row] => [_build_row row]
  | row :: rows' => _build_row row :: line :: rows_between line rows'
  end.

Definition _format_table (headers : list string) (rows : list (list string))
    (colwidths : list nat) : string :=
  match headers, rows with
  | [], [] => EmptyString
  | _, _ =>
      join nl
        ([_build_line "-" colwidths]
           ++ match headers with
              | [] => []
              | _ => [_build_row headers; _build_line "=" colwidths]
              end
           ++ rows_between (_build_line "-" colwidths) rows
           ++ [_build_line "-" colwidths])%list
  end.

(** The rows of a list of columns: [zip] over the columns. *)
Fixpoint transpose (cols : list (list string)) : list (list string) :=
  match cols with
  | [] => []
  | c :: cs =>
      match cs with
      | [] => map (fun x => [x]) c
      | _ => map (fun p => fst p :: snd p) (combine c (transpose cs))
      end
  end.

Fixpoint align_columns (cols : list (list string)) (aligns : list bool)
    (minwidths : list nat) : list (list string) :=
  match cols, aligns, minwidths with
  | c :: cols', a :: aligns', w :: minwidths' =>
      _align_column c a w :: align_columns cols' aligns' minwidths'
  | _, _, _ => []
  end.

Fixpoint align_headers (headers : list string) (aligns : list bool)
    (widths : list nat) : list string :=
  match headers, aligns, widths with
  | h :: headers', a :: aligns', w :: widths' =>
      _align_header h a w :: align_headers headers' aligns' widths'
  | _, _, _ => []
  end.

(** [tabulate(table, headers=hs, tablefmt="grid")].  The grid is the one
    format modelled. *)
Definition tabulate (table : list (cell * string)) (hs : list string)
    (tablefmt : string) : string :=
  let cols :=
    match table with
    | [] => []
    | _ => [map fst table; map (fun r => Str (snd r)) table]
    end in
  let headers :=
    match hs, table with
    | _ :: _, _ :: _ => (repeat EmptyString (2 - List.length hs) ++ hs)%list
    | _, _ => hs
    end in
  let coltypes := map _column_type cols in
  let texts :=
    map (fun col => map (_format (_column_type col)) col) cols in
  let aligns := map is_number_type coltypes in
  match headers with
  | [] =>
      let aligned := align_columns texts aligns (repeat 0 (List.length cols)) in
      _format_table [] (transpose aligned) (map max_width aligned)
  | _ =>
      let minwidths := map (fun h => String.length h + 2) headers in
      let aligned := align_columns texts aligns minwidths in
      let t_cols :=
        match aligned with
        | [] => repeat [EmptyString] (List.length headers)
        | _ => aligned
        end in
      let t_aligns :=
        match aligns with
        | [] => repeat false (List.length headers)
        | _ => aligns
        end in
      let widths :=
        map (fun p => Nat.max (fst p) (max_width (snd p))) (combine minwidths t_cols) in
      _format_table (align_headers headers t_aligns widths)
                    (transpose aligned) widths
  end.

End Tabulate.

(** The report of the test [test_average_gdp_format]:
    [("United States", 24388.50), ("China", 17848.50), ("Germany", 4138.33)]. *)
Definition float_literal (text : string) : float :=
  match float_of_string text with Some x => x | None => S754_nan end.

Definition format_test_report : list report_row :=
  Eval vm_compute in
    [(Str "United States", float_literal "24388.50");
     (Str "China", float_literal "17848.50");
     (Str "Germany", float_literal "4138.33")].

(** [needle in text] *)
Fixpoint occurs (needle text : string) : bool :=
  prefix needle text
  || match text with
     | EmptyString => false
     | String _ text' => occurs needle text'
     end.

(** Membership goals over the keys of the dictionary. *)
Ltac membership := first [tauto | intuition (subst; tauto)].

Lemma read_csv_file_run fs filepath t :
  read_csv_file fs filepath t = (load fs filepath, (t ++ [EvOpen filepath])%list).
Proof.
  unfold load, read_csv_file, open, io_bind, try_except, emit, lift, raise, ret.
  simpl.
  destruct (fs filepath) as [e | f].
  - destruct e; reflexivity.
  - destruct (read_opened filepath f) as [data | e].
    + destruct data; reflexivity.
    + destruct e; reflexivity.
Qed.

Lemma read_each_run fs filepaths :
  (forall p e, In p filepaths -> load fs p = Raise e -> is_Exception e = true) ->
  forall all_data errors t,
    read_each fs filepaths all_data errors t =
    (Ok ((all_data ++ flat_map (rows_of fs) filepaths)%list,
         (errors ++ flat_map (fun p => option_list (failure_message fs p)) filepaths)%list),
     (t ++ map EvOpen filepaths)%list).
Proof.
  induction filepaths as [| p rest IH]; intros Hexc all_data errors t.
  - simpl. unfold ret. now rewrite !app_nil_r.
  - assert (Hrest : forall q e, In q rest -> load fs q = Raise e -> is_Exception e = true)
      by (intros q e Hq; apply Hexc; now right).
    specialize (IH Hrest).
    cbn [read_each flat_map map].
    unfold io_bind at 1. unfold try_except. unfold io_bind at 1.
    rewrite read_csv_file_run.
    unfold failure_message, rows_of.
    destruct (load fs p) as [data | e] eqn:Hload.
    + unfold ret. cbn [fst snd]. rewrite IH.
      cbn [option_list]. rewrite <- !app_assoc. reflexivity.
    + pose proof (Hexc p e (or_introl eq_refl) Hload) as He.
      destruct e; try discriminate He; cbn [is_Exception]; unfold ret;
        cbn [fst snd]; rewrite IH; cbn [option_list app];
        rewrite <- !app_assoc; rewrite ?app_nil_r; reflexivity.
Qed.

Lemma first_char_differs (a b : ascii) (s t : string) :
  a <> b -> String a s <> String b t.
Proof. intros Hab Heq. now injection Heq. Qed.

(** ** The loader on a file without a header line *)

(** C3, at the file the repository's test writes.  A file whose only line
    is the data row [USA,2023,25462] has that line taken as its header:
    [reader.fieldnames] is not empty, no record follows, and
    [read_csv_file] raises the error of an empty data set, "No data found
    in file ...", where the claim and the test [test_read_csv_file_no_headers]
    expect the error "... has no headers". *)
Example read_csv_file_header_less_file :
  let fs := fun _ : string => Opens (csv_reader ("USA,2023,25462" ++ nl)) in
  csv_reader ("USA,2023,25462" ++ nl) = mkCsv [["USA"; "2023"; "25462"]] None
  /\ read_csv_file fs "data.csv" [] =
       (Raise (ValueError "No data found in file 'data.csv'"), [EvOpen "data.csv"])
  /\ load fs "data.csv" <> Raise (ValueError (no_headers_message "data.csv")).
Proof.
  split; [vm_compute; reflexivity |].
  split; [vm_compute; reflexivity | vm_compute; discriminate].
Qed.

(** ** The aggregator *)

(** C4.  [read_csv_files] opens every path once, in the order given,
    whether or not earlier paths failed.  When some path fails it raises a
    [ValueError] whose text joins, one per line and in input order, the
    failure lines of the failing paths, a missing file saying "File not
    found: ..." and any other failure "Error reading ...: ..."; when none
    fails it returns the rows of the files, file after file.  (A failure is
    an exception of class [Exception]; an interrupt is not one.) *)
Theorem read_csv_files_collects_all fs filepaths t :
  (forall p e, In p filepaths -> load fs p = Raise e -> is_Exception e = true) ->
  let errors := flat_map (fun p => option_list (failure_message fs p)) filepaths in
  snd (read_csv_files fs filepaths t) = (t ++ map EvOpen filepaths)%list
  /\ (errors = [] ->
      (forall p, In p filepaths -> exists data, load fs p = Ok data)
      /\ fst (read_csv_files fs filepaths t) = Ok (flat_map (rows_of fs) filepaths))
  /\ (errors <> [] ->
      fst (read_csv_files fs filepaths t) = Raise (ValueError (join nl errors)))
  /\ (forall p, In p filepaths ->
      match load fs p with
      | Ok _ => failure_message fs p = None
      | Raise (FileNotFoundError _) =>
          failure_message fs p = Some (not_found_message p)
      | Raise e => failure_message fs p = Some (read_error_message p e)
      end)
  /\ (forall p q e, not_found_message p <> read_error_message q e).
Proof.
  intros Hexc errors.
  assert (Hrun : read_csv_files fs filepaths t =
                 (match errors with
                  | [] => Ok (flat_map (rows_of fs) filepaths)
                  | _ => Raise (ValueError (join nl errors))
                  end, (t ++ map EvOpen filepaths)%list)).
  { unfold read_csv_files, io_bind.
    rewrite (read_each_run fs filepaths Hexc). cbn [fst snd app].
    fold errors. destruct errors; reflexivity. }
  rewrite Hrun. cbn [fst snd].
  split; [reflexivity |].
  split; [| split; [| split]].
  - intros Hnil. rewrite Hnil. split; [| reflexivity].
    intros p Hp.
    assert (Hp' : option_list (failure_message fs p) = []).
    { destruct (option_list (failure_message fs p)) as [| m ms] eqn:Hm; [reflexivity |].
      exfalso.
      assert (Hin : In m errors).
      { unfold errors. apply in_flat_map. exists p. split; [exact Hp |].
        rewrite Hm. now left. }
      rewrite Hnil in Hin. exact Hin. }
    unfold failure_message in Hp'.
    destruct (load fs p) as [data | e]; [now exists data |].
    destruct e; discriminate Hp'.
  - intros Hne. destruct errors; [congruence | reflexivity].
  - intros p _. unfold failure_message.
    destruct (load fs p) as [data | e]; [reflexivity |].
    destruct e; reflexivity.
  - intros p q e. unfold not_found_message, read_error_message.
    apply first_char_differs. discriminate.
Qed.

(** ** Dictionaries *)

Section DictFacts.
Context {K V : Type}.
Variable eqb : K -> K -> bool.
Hypothesis eqb_eq : forall a b, eqb a b = true <-> a = b.

Lemma eqb_refl_dict k : eqb k k = true.
Proof. now apply eqb_eq. Qed.

Lemma eqb_neq_dict a b : a <> b -> eqb a b = false.
Proof.
  intros Hab. destruct (eqb a b) eqn:E; [| reflexivity].
  apply eqb_eq in E. contradiction.
Qed.

Lemma get_set_eq (d : PyDict.dict (V := V)) k v :
  PyDict.get eqb (PyDict.set eqb d k v) k = Some v.
Proof.
  induction d as [| [k' v'] d IH]; simpl.
  - now rewrite eqb_refl_dict.
  - destruct (eqb k k') eqn:E; simpl; rewrite E; [reflexivity | exact IH].
Qed.

Lemma get_set_neq (d : PyDict.dict (V := V)) k k' v :
  k <> k' -> PyDict.get eqb (PyDict.set eqb d k v) k' = PyDict.get eqb d k'.
Proof.
  intros Hk. induction d as [| [k0 v0] d IH]; simpl.
  - rewrite eqb_neq_dict; [reflexivity | congruence].
  - destruct (eqb k k0) eqn:E; simpl.
    + apply eqb_eq in E. subst k0.
      rewrite eqb_neq_dict; [reflexivity | congruence].
    + destruct (eqb k' k0); [reflexivity | exact IH].
Qed.

Lemma get_In_values (d : PyDict.dict (V := V)) k v :
  PyDict.get eqb d k = Some v -> In v (PyDict.values d).
Proof.
  induction d as [| [k' v'] d IH]; simpl; [discriminate |].
  destruct (eqb k k'); intros H.
  - left. congruence.
  - right. now apply IH.
Qed.

Lemma get_In_items (d : PyDict.dict (V := V)) k v :
  PyDict.get eqb d k = Some v -> In (k, v) d.
Proof.
  induction d as [| [k' v'] d IH]; simpl; [discriminate |].
  destruct (eqb k k') eqn:E; intros H.
  - left. apply eqb_eq in E. congruence.
  - right. now apply IH.
Qed.

Lemma get_None_keys (d : PyDict.dict (V := V)) k :
  PyDict.get eqb d k = None <-> ~ In k (PyDict.keys d).
Proof.
  induction d as [| [k' v'] d IH]; simpl; [tauto |].
  destruct (eqb k k') eqn:E.
  - apply eqb_eq in E. subst. split; [discriminate | intros H; exfalso; auto].
  - rewrite IH. split.
    + intros H [H1 | H1]; [| contradiction].
      subst. rewrite eqb_refl_dict in E. discriminate.
    + tauto.
Qed.

Lemma In_items_get (d : PyDict.dict (V := V)) k v :
  NoDup (PyDict.keys d) -> In (k, v) d -> PyDict.get eqb d k = Some v.
Proof.
  induction d as [| [k' v'] d IH]; simpl; [contradiction |].
  intros Hnd [H | H].
  - injection H as -> ->. now rewrite eqb_refl_dict.
  - inversion Hnd as [| ? ? Hnotin Hnd']; subst.
    destruct (eqb k k') eqn:E.
    + apply eqb_eq in E. subst. exfalso. apply Hnotin.
      change (In (fst (k', v)) (map fst d)). now apply in_map.
    + now apply IH.
Qed.

Lemma keys_set_present (d : PyDict.dict (V := V)) k v w :
  PyDict.get eqb d k = Some w ->
  PyDict.keys (PyDict.set eqb d k v) = PyDict.keys d.
Proof.
  induction d as [| [k' v'] d IH]; simpl; [discriminate |].
  destruct (eqb k k') eqn:E; simpl; intros H; [reflexivity |].
  f_equal. now apply IH.
Qed.

Lemma keys_set_absent (d : PyDict.dict (V := V)) k v :
  PyDict.get eqb d k = None ->
  PyDict.keys (PyDict.set eqb d k v) = (PyDict.keys d ++ [k])%list.
Proof.
  induction d as [| [k' v'] d IH]; simpl; [reflexivity |].
  destruct (eqb k k') eqn:E; simpl; intros H; [discriminate |].
  f_equal. now apply IH.
Qed.

Lemma get_app_absent (d : PyDict.dict (V := V)) k v k' :
  PyDict.get eqb d k = None ->
  PyDict.get eqb (d ++ [(k, v)])%list k' =
  if eqb k' k then Some v else PyDict.get eqb d k'.
Proof.
  intros Hk. induction d as [| [k0 v0] d IH]; simpl; [reflexivity |].
  simpl in Hk. destruct (eqb k k0) eqn:E; [discriminate |].
  destruct (eqb k' k0) eqn:E'.
  - apply eqb_eq in E'. subst k0.
    rewrite (eqb_neq_dict k' k); [reflexivity |].
    intros ->. rewrite eqb_refl_dict in E. discriminate.
  - now apply IH.
Qed.
End DictFacts.

Lemma cell_eqb_eq a b : cell_eqb a b = true <-> a = b.
Proof.
  destruct a as [s |], b as [t |]; simpl; try (split; [discriminate | congruence]).
  - rewrite String.eqb_eq. split; congruence.
  - tauto.
Qed.

(** ** The rows the reader builds *)

Lemma fold_set_none_get (keys : list string) (d : PyDict.dict (V := cell)) k :
  PyDict.get String.eqb
    (fold_left (fun d key => PyDict.set String.eqb d key PyNone) keys d) k =
  if in_dec string_dec k keys then Some PyNone else PyDict.get String.eqb d k.
Proof.
  revert d. induction keys as [| key keys IH]; intros d; simpl; [reflexivity |].
  rewrite IH.
  destruct (in_dec string_dec k keys) as [Hin | Hnin].
  - destruct (string_dec key k); reflexivity.
  - destruct (string_dec key k) as [-> | Hne].
    + now rewrite (get_set_eq String.eqb String.eqb_eq).
    + now rewrite (get_set_neq String.eqb String.eqb_eq).
Qed.

Lemma fold_set_str_contains (pairs : list (string * string))
    (d : PyDict.dict (V := cell)) k :
  In k (map fst pairs) \/ PyDict.get String.eqb d k <> None ->
  PyDict.get String.eqb
    (fold_left (fun d '(k, v) => PyDict.set String.eqb d k (Str v)) pairs d) k
  <> None.
Proof.
  revert d. induction pairs as [| [k0 v0] pairs IH]; intros d; simpl.
  - intros [[] | H]; exact H.
  - intros H. apply IH.
    destruct (string_dec k0 k) as [-> | Hne].
    + right. rewrite (get_set_eq String.eqb String.eqb_eq). discriminate.
    + destruct H as [[H | H] | H].
      * contradiction.
      * now left.
      * right. now rewrite (get_set_neq String.eqb String.eqb_eq).
Qed.

Lemma combine_fst_firstn {A B : Type} (l : list A) (l' : list B) :
  map fst (combine l l') = firstn (List.length l') l.
Proof.
  revert l'. induction l as [| a l IH]; intros [| b l']; simpl; try reflexivity.
  f_equal. apply IH.
Qed.

(** A record shorter than the header: the names it does not reach are
    bound to [None]; every name of the header is a key. *)
Lemma make_row_short fieldnames record :
  (List.length record < List.length fieldnames)%nat ->
  (forall key, In key (skipn (List.length record) fieldnames) ->
               row_get (make_row fieldnames record) key = Some PyNone)
  /\ (forall key, In key fieldnames ->
                  row_get (make_row fieldnames record) key <> None)
  /\ all_empty (make_row fieldnames record) = false.
Proof.
  intros Hlen. unfold make_row.
  assert (H1 : (List.length fieldnames <? List.length record)%nat = false)
    by (apply Nat.ltb_ge; lia).
  assert (H2 : (List.length record <? List.length fieldnames)%nat = true)
    by (now apply Nat.ltb_lt).
  rewrite H1, H2. unfold row_get. cbn [named restkey].
  assert (Hmissing : forall key, In key (skipn (List.length record) fieldnames) ->
            PyDict.get String.eqb
              (fold_left (fun d key => PyDict.set String.eqb d key PyNone)
                 (skipn (List.length record) fieldnames)
                 (dict_zip fieldnames record)) key = Some PyNone).
  { intros key Hkey. rewrite fold_set_none_get.
    destruct (in_dec string_dec key _); [reflexivity | contradiction]. }
  split; [exact Hmissing |]. split.
  - intros key Hkey. rewrite fold_set_none_get.
    destruct (in_dec string_dec key _) as [Hin | Hnin]; [discriminate |].
    unfold dict_zip. apply fold_set_str_contains. left.
    rewrite combine_fst_firstn.
    rewrite <- (firstn_skipn (List.length record) fieldnames) in Hkey.
    apply in_app_or in Hkey. tauto.
  - unfold all_empty. cbn [named restkey]. rewrite andb_true_r.
    assert (Hex : exists key, In key (skipn (List.length record) fieldnames)).
    { clear Hmissing.
      destruct (skipn (List.length record) fieldnames) as [| key rest] eqn:Hskip.
      - exfalso. apply (f_equal (@List.length string)) in Hskip.
        rewrite length_skipn in Hskip. simpl in Hskip. lia.
      - exists key. now left. }
    destruct Hex as [key Hkey].
    + assert (Hin : In PyNone
                (PyDict.values
                   (fold_left (fun d key => PyDict.set String.eqb d key PyNone)
                      (skipn (List.length record) fieldnames)
                      (dict_zip fieldnames record)))).
      { apply (get_In_values String.eqb) with (k := key).
        now apply Hmissing. }
      destruct (forallb cell_is_empty _) eqn:Hall; [| reflexivity].
      rewrite forallb_forall in Hall. apply Hall in Hin. discriminate Hin.
Qed.

Lemma read_rows_spec fieldnames recs end_ data :
  read_rows fieldnames recs end_ data =
  match end_ with
  | None => Ok (data ++ kept_rows fieldnames recs)%list
  | Some e => Raise e
  end.
Proof.
  revert data. induction recs as [| record recs IH]; intros data.
  - simpl. destruct end_; [reflexivity |].
    unfold kept_rows, dict_rows. simpl. now rewrite app_nil_r.
  - destruct record as [| c cs].
    + simpl. rewrite IH. reflexivity.
    + cbn [read_rows]. unfold kept_rows, dict_rows in *.
      cbn [filter is_blank_record negb map].
      destruct (all_empty (make_row fieldnames (c :: cs))) eqn:Hall;
        rewrite IH; destruct end_; try reflexivity.
      cbn [negb app]. now rewrite <- app_assoc.
Qed.

Lemma load_opened fs filepath name names recs :
  fs filepath = Opens (mkCsv ((name :: names) :: recs) None) ->
  load fs filepath =
  match kept_rows (name :: names) recs with
  | [] => Raise (ValueError (no_data_message filepath))
  | data => Ok data
  end.
Proof.
  intros Hfs.
  unfold load, read_csv_file, open, io_bind, try_except, emit, lift, raise, ret.
  cbn [fst snd app]. rewrite Hfs.
  unfold read_opened, fieldnames_of. cbn [records ending bind tl].
  rewrite read_rows_spec. cbn [app fst].
  destruct (kept_rows (name :: names) recs); reflexivity.
Qed.

Lemma all_empty_iff r :
  all_empty r = true <->
  restkey r = None /\ forall v, In v (PyDict.values (named r)) -> v = Str EmptyString.
Proof.
  unfold all_empty. rewrite andb_true_iff, forallb_forall. split.
  - intros [Hvals Hrest]. split.
    + destruct (restkey r); [discriminate | reflexivity].
    + intros v Hv. specialize (Hvals v Hv).
      destruct v as [s |]; simpl in Hvals; [| discriminate].
      apply String.eqb_eq in Hvals. now subst.
  - intros [Hrest Hvals]. split.
    + intros v Hv. rewrite (Hvals v Hv). reflexivity.
    + now rewrite Hrest.
Qed.

(** ** The loader's skip rule *)

(** C7.  For a file that opens, has a header and is read to its end, the
    loader returns the rows the reader yields less the rows it skips, and
    it skips a row exactly when every value of the row is the empty string
    (a value [None] or a list of surplus fields is not); hence a row with
    some empty and some other cell is kept.  It raises "No data found in
    file ..." exactly when no row is left. *)
Theorem read_csv_file_skips_blank_rows fs filepath name names recs :
  fs filepath = Opens (mkCsv ((name :: names) :: recs) None) ->
  let yielded := dict_rows (name :: names) recs in
  let kept := filter (fun r => negb (all_empty r)) yielded in
  (forall r, In r yielded ->
     (In r kept <-> ~ (restkey r = None /\
                       forall v, In v (PyDict.values (named r)) ->
                                 v = Str EmptyString)))
  /\ (forall r v s, In r yielded -> In v (PyDict.values (named r)) ->
        v = Str s -> s <> EmptyString -> In r kept)
  /\ (kept <> [] -> load fs filepath = Ok kept)
  /\ (load fs filepath = Raise (ValueError (no_data_message filepath))
      <-> kept = []).
Proof.
  intros Hfs yielded kept.
  pose proof (load_opened fs filepath name names recs Hfs) as Hload.
  fold yielded in Hload. change (kept_rows (name :: names) recs) with kept in Hload.
  assert (Hkept : forall r, In r yielded ->
            (In r kept <-> ~ (restkey r = None /\
                              forall v, In v (PyDict.values (named r)) ->
                                        v = Str EmptyString))).
  { intros r Hr. unfold kept. rewrite filter_In, <- all_empty_iff.
    destruct (all_empty r); simpl; split; intros H;
      try tauto; try (split; [exact Hr | reflexivity]);
      try (exfalso; apply H; reflexivity); try discriminate.
    destruct H as [_ H]. discriminate. }
  split; [exact Hkept |]. split; [| split].
  - intros r v s Hr Hv Hs Hne. apply Hkept; [exact Hr |].
    intros [_ Hall]. specialize (Hall v Hv). congruence.
  - intros Hne. rewrite Hload. destruct kept; [congruence | reflexivity].
  - rewrite Hload. destruct kept; split; intros H;
      try reflexivity; try discriminate.
Qed.

(** ** The row loop of [generate] *)

Lemma row_ok_error r : row_ok r = true <-> row_error r = None.
Proof.
  unfold row_ok, row_error.
  destruct (row_get r "country"), (row_get r "gdp") as [raw |];
    try (split; discriminate).
  destruct (py_float raw); split; (reflexivity || discriminate).
Qed.

Lemma lacks_column_error r :
  lacks_column r = true -> row_error r = Some (ValueError schema_message).
Proof.
  unfold lacks_column, row_error, row_contains, row_get, PyDict.contains.
  destruct (PyDict.get String.eqb (named r) "country");
    destruct (PyDict.get String.eqb (named r) "gdp"); simpl;
    (reflexivity || discriminate).
Qed.

Lemma first_error_app pre rest :
  (forall r, In r pre -> row_ok r = true) ->
  first_error (pre ++ rest) = first_error rest.
Proof.
  induction pre as [| r pre IH]; intros Hok; simpl; [reflexivity |].
  assert (Hr : row_error r = None) by (apply row_ok_error, Hok; now left).
  rewrite Hr. apply IH. intros r' Hr'. apply Hok. now right.
Qed.

Lemma first_error_split data e :
  first_error data = Some e ->
  exists pre r post,
    data = (pre ++ r :: post)%list
    /\ (forall r', In r' pre -> row_ok r' = true)
    /\ row_error r = Some e.
Proof.
  induction data as [| r data IH]; simpl; [discriminate |].
  destruct (row_error r) as [e' |] eqn:Hr.
  - intros H. injection H as ->.
    exists [], r, data. repeat split; [contradiction | exact Hr].
  - intros H. destruct (IH H) as (pre & r0 & post & -> & Hpre & Hr0).
    exists (r :: pre), r0, post. repeat split; [| exact Hr0].
    intros r' [<- | Hin]; [now apply row_ok_error | now apply Hpre].
Qed.

Lemma first_error_none data :
  first_error data = None <-> forall r, In r data -> row_ok r = true.
Proof.
  induction data as [| r data IH]; simpl.
  - split; [contradiction | reflexivity].
  - destruct (row_error r) as [e |] eqn:Hr.
    + split; [discriminate |]. intros H.
      assert (Hok : row_ok r = true) by (apply H; now left).
      apply row_ok_error in Hok. congruence.
    + rewrite IH. split.
      * intros H r' [<- | Hin]; [now apply row_ok_error | now apply H].
      * intros H r' Hin. apply H. now right.
Qed.

Lemma accumulate_first_error data acc :
  match first_error data with
  | Some e => accumulate data acc = Raise e
  | None => exists d, accumulate data acc = Ok d
  end.
Proof.
  revert acc. induction data as [| r data IH]; intros acc; simpl.
  - now exists acc.
  - unfold row_error.
    destruct (row_get r "country") as [country |]; [| reflexivity].
    destruct (row_get r "gdp") as [raw |]; [| reflexivity].
    destruct (py_float raw) as [gdp |]; [| reflexivity].
    apply IH.
Qed.

Lemma generate_first_error data e :
  first_error data = Some e -> generate data = Raise e.
Proof.
  intros H. unfold generate.
  pose proof (accumulate_first_error data []) as Hacc.
  rewrite H in Hacc. now rewrite Hacc.
Qed.

Lemma generate_raises_at pre r post e :
  (forall r', In r' pre -> row_ok r' = true) ->
  row_error r = Some e ->
  generate (pre ++ r :: post) = Raise e.
Proof.
  intros Hpre Hr. apply generate_first_error.
  rewrite first_error_app by exact Hpre. simpl. now rewrite Hr.
Qed.


(** ** Rows without a required column *)

(** C5, on a data set whose first row has a [gdp] cell that is not a
    numeral and whose second row has neither column: [generate] raises
    the error of the first row, "Invalid GDP value: x", not the error of
    the missing columns. *)
Example generate_missing_column_after_bad_value :
  let data := [mkRow [("country", Str "A"); ("gdp", Str "x")] None;
               mkRow [("name", Str "B")] None] in
  (exists r, In r data /\ lacks_column r = true)
  /\ generate data = Raise (ValueError "Invalid GDP value: x")
  /\ generate data <> Raise (ValueError schema_message).
Proof.
  split; [| split].
  - eexists. split; [right; left; reflexivity | reflexivity].
  - reflexivity.
  - discriminate.
Qed.

(** C5 as amended.  A data set with a row that lacks the [country] key or
    the [gdp] key makes [generate] raise, so that no aggregate is
    returned; the error is "CSV must contain 'country' and 'gdp' columns",
    raised at the first such row, whenever every row before that row has
    both keys and a [gdp] cell that is a numeral. *)
Theorem generate_missing_column data :
  (exists r, In r data /\ lacks_column r = true) ->
  (exists msg, generate data = Raise (ValueError msg))
  /\ (forall pre r post,
        data = (pre ++ r :: post)%list ->
        lacks_column r = true ->
        (forall r', In r' pre -> row_ok r' = true) ->
        generate data = Raise (ValueError schema_message)).
Proof.
  intros (r & Hin & Hlacks). split.
  - destruct (first_error data) as [e |] eqn:Hfirst.
    + destruct (first_error_split data e Hfirst) as (pre & r0 & post & _ & _ & Hr0).
      rewrite (generate_first_error data e Hfirst).
      unfold row_error in Hr0.
      destruct (row_get r0 "country"), (row_get r0 "gdp") as [raw |];
        try (injection Hr0 as <-; eexists; reflexivity).
      destruct (py_float raw); [discriminate |].
      injection Hr0 as <-. eexists. reflexivity.
    + exfalso. rewrite first_error_none in Hfirst.
      specialize (Hfirst r Hin). apply row_ok_error in Hfirst.
      rewrite (lacks_column_error r Hlacks) in Hfirst. discriminate.
  - intros pre r0 post -> Hr0 Hpre.
    apply generate_raises_at; [exact Hpre | now apply lacks_column_error].
Qed.

(** ** Cells that are not numerals *)


(** ** Records shorter than the header *)

(** C10, on a file whose header is [country,gdp] and whose data are a
    blank line and the row [USA,1]: the blank line supplies fewer cells
    than the header has columns, yet no row is built for it; it is passed
    over, and the data set holds the other row only. *)
Example blank_line_is_passed_over :
  let fieldnames := ["country"; "gdp"] in
  let record : list string := [] in
  let text := "country,gdp" ++ nl ++ nl ++ "USA,1" ++ nl in
  let fs := fun _ : string => Opens (csv_reader text) in
  csv_reader text = mkCsv [fieldnames; record; ["USA"; "1"]] None
  /\ (List.length record < List.length fieldnames)%nat
  /\ load fs "data.csv" = Ok [make_row fieldnames ["USA"; "1"]]
  /\ ~ In (make_row fieldnames record) [make_row fieldnames ["USA"; "1"]]
  /\ generate [make_row fieldnames ["USA"; "1"]]
     <> Raise (ValueError "Invalid GDP value: None").
Proof.
  cbv zeta. split; [vm_compute; reflexivity |].
  split; [simpl; lia |]. split; [vm_compute; reflexivity |]. split.
  - intros [H | []]. discriminate H.
  - vm_compute. discriminate.
Qed.

(** C10 as amended.  A record with at least one field and fewer fields
    than the header has names is made a row in which the names it does not
    reach are bound to [None]; such a row is not all-empty, so the loader
    keeps it; and when [gdp] is among those names (and [country] is in the
    header), [generate] raises "Invalid GDP value: None" on reaching the
    row. *)
Theorem short_record_bound_to_none fieldnames record :
  record <> [] ->
  (List.length record < List.length fieldnames)%nat ->
  let r := make_row fieldnames record in
  (forall key, In key (skipn (List.length record) fieldnames) ->
               row_get r key = Some PyNone)
  /\ all_empty r = false
  /\ (forall fs filepath recs,
        fs filepath = Opens (mkCsv (fieldnames :: recs) None) ->
        In record recs ->
        exists data, load fs filepath = Ok data /\ In r data)
  /\ (In "country" fieldnames ->
      In "gdp" (skipn (List.length record) fieldnames) ->
      forall pre post,
        (forall r', In r' pre -> row_ok r' = true) ->
        generate (pre ++ r :: post) = Raise (ValueError "Invalid GDP value: None")).
Proof.
  intros Hne Hlen r.
  destruct (make_row_short fieldnames record Hlen) as (Hnone & Hkeys & Hall).
  fold r in Hnone, Hkeys, Hall.
  split; [exact Hnone |]. split; [exact Hall |]. split.
  - intros fs filepath recs Hfs Hin.
    destruct fieldnames as [| name names]; [simpl in Hlen; lia |].
    rewrite (load_opened fs filepath name names recs Hfs).
    assert (Hkept : In r (kept_rows (name :: names) recs)).
    { unfold kept_rows. apply filter_In. split.
      - unfold dict_rows, r. apply in_map. apply filter_In. split; [exact Hin |].
        destruct record; [congruence | reflexivity].
      - now rewrite Hall. }
    destruct (kept_rows (name :: names) recs) as [| r0 rs]; [contradiction |].
    now exists (r0 :: rs).
  - intros Hcountry Hgdp pre post Hpre.
    apply generate_raises_at; [exact Hpre |].
    unfold row_error. rewrite (Hnone "gdp" Hgdp).
    specialize (Hkeys "country" Hcountry).
    destruct (row_get r "country"); [reflexivity | congruence].
Qed.

(** ** The order of the floats *)

Lemma SFcompare_antisym x y :
  SFcompare y x = option_map CompOpp (SFcompare x y).
Proof.
  destruct x as [sx | sx | | sx mx ex], y as [sy | sy | | sy my ey];
    try destruct sx; try destruct sy; try reflexivity.
  - simpl. rewrite (Z.compare_antisym ex ey).
    destruct (ex ?= ey)%Z; simpl; try reflexivity.
    rewrite (Pos.compare_cont_antisym mx my Eq). reflexivity.
  - simpl. rewrite (Z.compare_antisym ex ey).
    destruct (ex ?= ey)%Z; simpl; try reflexivity.
    rewrite (Pos.compare_cont_antisym mx my Eq). reflexivity.
Qed.

Lemma flt_key x y :
  x <> S754_nan -> y <> S754_nan ->
  (flt x y = true <-> key_lt (float_key x) (float_key y)).
Proof.
  intros Hx Hy. unfold flt, SFltb.
  destruct x as [sx | sx | | sx mx ex], y as [sy | sy | | sy my ey];
    try congruence;
    try destruct sx; try destruct sy; simpl;
    try (split; [discriminate | lia]);
    try (split; [lia | reflexivity]).
  - change (Pos.compare_cont Eq mx my) with (mx ?= my)%positive.
    destruct (Z.compare_spec ex ey) as [He | He | He];
      [destruct (Pos.compare_spec mx my) as [Hm | Hm | Hm] | |]; simpl;
      split; try discriminate; try lia; try reflexivity.
  - change (Pos.compare_cont Eq mx my) with (mx ?= my)%positive.
    destruct (Z.compare_spec ex ey) as [He | He | He];
      [destruct (Pos.compare_spec mx my) as [Hm | Hm | Hm] | |]; simpl;
      split; try discriminate; try lia; try reflexivity.
Qed.

Lemma flt_false_key x y :
  x <> S754_nan -> y <> S754_nan ->
  (flt x y = false <-> ~ key_lt (float_key x) (float_key y)).
Proof.
  intros Hx Hy. rewrite <- (flt_key x y Hx Hy).
  destruct (flt x y); split; congruence.
Qed.

Lemma flt_asym x y :
  x <> S754_nan -> y <> S754_nan -> flt x y = true -> flt y x = false.
Proof.
  intros Hx Hy H. apply (flt_key x y Hx Hy) in H.
  apply (flt_false_key y x Hy Hx).
  destruct (float_key x) as [[a b] c], (float_key y) as [[a' b'] c'].
  simpl in *. lia.
Qed.

Lemma flt_false_trans x y z :
  x <> S754_nan -> y <> S754_nan -> z <> S754_nan ->
  flt x y = false -> flt y z = false -> flt x z = false.
Proof.
  intros Hx Hy Hz Hxy Hyz.
  apply (flt_false_key x y Hx Hy) in Hxy.
  apply (flt_false_key y z Hy Hz) in Hyz.
  apply (flt_false_key x z Hx Hz).
  destruct (float_key x) as [[a b] c], (float_key y) as [[a' b'] c'],
    (float_key z) as [[a'' b''] c''].
  simpl in *. lia.
Qed.

Lemma fle_of_flt_false x y :
  x <> S754_nan -> y <> S754_nan -> flt x y = false -> fle y x = true.
Proof.
  unfold flt, fle, SFltb, SFleb. intros Hx Hy.
  rewrite (SFcompare_antisym x y).
  destruct (SFcompare x y) as [[| |] |] eqn:Hc; simpl;
    try reflexivity; try discriminate.
  destruct x, y; try congruence; simpl in Hc;
    repeat match type of Hc with
           | context [if ?b then _ else _] => destruct b
           end; discriminate.
Qed.

Lemma feq_flt_false x y : feq x y = true -> flt y x = false.
Proof.
  unfold feq, flt, SFeqb, SFltb. rewrite (SFcompare_antisym x y).
  destruct (SFcompare x y) as [[| |] |]; simpl; congruence.
Qed.

(** ** Lists: one item before another *)

Lemma before_cons {A : Type} (a b x : A) l :
  before a b (x :: l) <-> (a = x /\ In b l) \/ before a b l.
Proof.
  unfold before. split.
  - intros (l1 & l2 & Heq & Hb). destruct l1 as [| y l1]; simpl in Heq.
    + injection Heq as <- <-. now left.
    + injection Heq as <- ->. right. now exists l1, l2.
  - intros [[-> Hb] | (l1 & l2 & -> & Hb)].
    + now exists [], l.
    + now exists (x :: l1), l2.
Qed.

Lemma before_nil {A : Type} (a b : A) : ~ before a b [].
Proof. intros (l1 & l2 & Heq & _). now destruct l1. Qed.

Lemma before_In {A : Type} (a b : A) l : before a b l -> In a l /\ In b l.
Proof.
  intros (l1 & l2 & -> & Hb). split; apply in_or_app; right;
    [now left | now right].
Qed.

Lemma before_app_one {A : Type} (a b c : A) l :
  before a b (l ++ [c]) -> before a b l \/ (In a l /\ b = c).
Proof.
  induction l as [| x l IH]; simpl.
  - intros H. apply before_cons in H. destruct H as [[_ []] | H].
    now apply before_nil in H.
  - intros H. apply before_cons in H. destruct H as [[-> Hb] | H].
    + apply in_app_or in Hb. destruct Hb as [Hb | [<- | []]].
      * left. apply before_cons. now left.
      * right. split; [now left | reflexivity].
    + destruct (IH H) as [H' | [Ha ->]].
      * left. apply before_cons. now right.
      * right. split; [now right | reflexivity].
Qed.

Lemma before_split {A : Type} (l1 : list A) p l2 q l3 :
  before p q (l1 ++ p :: l2 ++ q :: l3).
Proof.
  exists l1, (l2 ++ q :: l3)%list. split; [reflexivity |].
  apply in_or_app. right. now left.
Qed.

Lemma before_map {A B : Type} (f : A -> B) a b l :
  before a b l -> before (f a) (f b) (map f l).
Proof.
  intros (l1 & l2 & -> & Hb). exists (map f l1), (map f l2).
  split; [now rewrite map_app | now apply in_map].
Qed.

(** ** Sorting *)

Section SortFacts.
Context {A : Type}.
Variable lt : A -> A -> bool.

Lemma insert_desc_perm x l : Permutation (insert_desc lt x l) (x :: l).
Proof.
  induction l as [| y l IH]; simpl; [reflexivity |].
  destruct (lt x y); [| reflexivity].
  rewrite IH. apply perm_swap.
Qed.

Lemma sort_reverse_perm l : Permutation (sort_reverse lt l) l.
Proof.
  induction l as [| x l IH]; simpl; [reflexivity |].
  rewrite insert_desc_perm. now apply perm_skip.
Qed.

Lemma insert_desc_before x s a b :
  before a b (insert_desc lt x s) ->
  (a = x /\ In b s) \/ (b = x /\ In a s /\ lt x a = true) \/ before a b s.
Proof.
  induction s as [| y s IH]; simpl.
  - intros H. apply before_cons in H. destruct H as [[_ []] | H].
    now apply before_nil in H.
  - destruct (lt x y) eqn:Hxy; intros H; apply before_cons in H.
    + destruct H as [[-> Hb] | H].
      * apply (Permutation_in _ (insert_desc_perm x s)) in Hb.
        destruct Hb as [<- | Hb].
        -- right. left. repeat split; [now left | exact Hxy].
        -- right. right. apply before_cons. now left.
      * destruct (IH H) as [[-> Hb] | [(-> & Ha & Hlt) | H']].
        -- left. split; [reflexivity | now right].
        -- right. left. repeat split; [now right | exact Hlt].
        -- right. right. apply before_cons. now right.
    + destruct H as [[-> Hb] | H]; [now left | now right; right].
Qed.

(** Stability: an item that ends up before another one which is not
    greater was before it already. *)
Lemma sort_reverse_stable l a b :
  before a b (sort_reverse lt l) -> lt b a = false -> before a b l.
Proof.
  induction l as [| x l IH]; simpl; intros H Hba.
  - now apply before_nil in H.
  - apply insert_desc_before in H.
    destruct H as [[-> Hb] | [(-> & _ & Hlt) | H]].
    + apply before_cons. left. split; [reflexivity |].
      now apply (Permutation_in _ (sort_reverse_perm l)).
    + congruence.
    + apply before_cons. right. now apply IH.
Qed.

(** A list in which no item is less than its right neighbour is left as
    it stands. *)
Lemma sort_reverse_unmoved l :
  (forall l1 a b l2, l = (l1 ++ a :: b :: l2)%list -> lt a b = false) ->
  sort_reverse lt l = l.
Proof.
  induction l as [| x l IH]; intros H; simpl; [reflexivity |].
  rewrite IH.
  - destruct l as [| y l']; simpl; [reflexivity |].
    now rewrite (H [] x y l' eq_refl).
  - intros l1 a b l2 ->. now apply (H (x :: l1) a b l2).
Qed.

Variable P : A -> Prop.
Hypothesis lt_asym : forall x y, P x -> P y -> lt x y = true -> lt y x = false.
Hypothesis lt_false_trans :
  forall x y z, P x -> P y -> P z ->
    lt x y = false -> lt y z = false -> lt x z = false.

Lemma descending_cons x l :
  descending lt (x :: l) <-> (forall y, In y l -> lt x y = false) /\ descending lt l.
Proof.
  unfold descending. split.
  - intros H. split.
    + intros y Hy. apply H. apply before_cons. now left.
    + intros a b Hab. apply H. apply before_cons. now right.
  - intros [Hx Hl] a b Hab. apply before_cons in Hab.
    destruct Hab as [[-> Hb] | Hab]; [now apply Hx | now apply Hl].
Qed.

Lemma insert_desc_descending x s :
  P x -> (forall y, In y s -> P y) ->
  descending lt s -> descending lt (insert_desc lt x s).
Proof.
  intros Hx. induction s as [| y s IH]; intros HP Hs; simpl.
  - apply descending_cons. split; [contradiction |].
    intros a b H. now apply before_nil in H.
  - apply descending_cons in Hs. destruct Hs as [Hy Hs].
    assert (HPy : P y) by (apply HP; now left).
    assert (HPs : forall z, In z s -> P z) by (intros z Hz; apply HP; now right).
    destruct (lt x y) eqn:Hxy; apply descending_cons; split.
    + intros z Hz. apply (Permutation_in _ (insert_desc_perm x s)) in Hz.
      destruct Hz as [<- | Hz]; [now apply lt_asym | now apply Hy].
    + now apply IH.
    + intros z [<- | Hz]; [exact Hxy |].
      apply (lt_false_trans x y z); auto.
    + apply descending_cons. now split.
Qed.

Lemma sort_reverse_descending l :
  (forall x, In x l -> P x) -> descending lt (sort_reverse lt l).
Proof.
  induction l as [| x l IH]; intros HP; simpl.
  - intros a b H. now apply before_nil in H.
  - apply insert_desc_descending.
    + apply HP. now left.
    + intros y Hy. apply HP. right.
      now apply (Permutation_in _ (sort_reverse_perm l)).
    + apply IH. intros y Hy. apply HP. now right.
Qed.
End SortFacts.

(** ** The dictionary [generate] accumulates *)

Lemma set_In {K V : Type} (eqb : K -> K -> bool) (d : PyDict.dict) (k : K) (v : V) k' v' :
  In (k', v') (PyDict.set eqb d k v) -> In (k', v') d \/ v' = v.
Proof.
  induction d as [| [k0 v0] d IH]; simpl.
  - intros [H | []]. right. congruence.
  - destruct (eqb k k0); simpl; intros [H | H].
    + right. congruence.
    + left. now right.
    + left. now left.
    + destruct (IH H); [left; now right | now right].
Qed.

Lemma append_gdp_keys acc c x :
  PyDict.keys (append_gdp acc c x) =
  match PyDict.get cell_eqb acc c with
  | Some _ => PyDict.keys acc
  | None => (PyDict.keys acc ++ [c])%list
  end.
Proof.
  unfold append_gdp. destruct (PyDict.get cell_eqb acc c) as [gdps |] eqn:Hget.
  - now apply (keys_set_present cell_eqb) with (w := gdps).
  - unfold PyDict.keys. now rewrite map_app.
Qed.

Lemma append_gdp_keys_In acc c x k :
  In k (PyDict.keys (append_gdp acc c x)) <-> In k (PyDict.keys acc) \/ k = c.
Proof.
  rewrite append_gdp_keys.
  destruct (PyDict.get cell_eqb acc c) as [gdps |] eqn:Hget.
  - split; [now left |]. intros [H | ->]; [exact H |].
    apply (get_In_items cell_eqb cell_eqb_eq) in Hget.
    change c with (fst (c, gdps)). now apply in_map.
  - rewrite in_app_iff. simpl. intuition congruence.
Qed.

Lemma gdps_so_far_append acc c0 x c :
  gdps_so_far (append_gdp acc c0 x) c =
  (gdps_so_far acc c ++ (if cell_eqb c c0 then [x] else []))%list.
Proof.
  unfold gdps_so_far, append_gdp.
  destruct (PyDict.get cell_eqb acc c0) as [gdps0 |] eqn:Hget0.
  - destruct (cell_eqb c c0) eqn:Hc.
    + apply cell_eqb_eq in Hc. subst c0.
      now rewrite (get_set_eq cell_eqb cell_eqb_eq), Hget0.
    + rewrite (get_set_neq cell_eqb cell_eqb_eq).
      * now rewrite app_nil_r.
      * intros ->. rewrite (eqb_refl_dict cell_eqb cell_eqb_eq) in Hc. discriminate.
  - rewrite (get_app_absent cell_eqb cell_eqb_eq) by exact Hget0.
    destruct (cell_eqb c c0) eqn:Hc.
    + apply cell_eqb_eq in Hc. subst c0. now rewrite Hget0.
    + now rewrite app_nil_r.
Qed.

Lemma append_gdp_nonempty acc c x :
  nonempty_values acc -> nonempty_values (append_gdp acc c x).
Proof.
  unfold nonempty_values, append_gdp. intros Hacc c' gdps' Hin.
  destruct (PyDict.get cell_eqb acc c) as [gdps |].
  - apply set_In in Hin. destruct Hin as [Hin | ->]; [now apply (Hacc c') |].
    now destruct gdps.
  - apply in_app_or in Hin. destruct Hin as [Hin | [Hin | []]].
    + now apply (Hacc c').
    + injection Hin as _ <-. discriminate.
Qed.

(** Induction over a run of the row loop that does not raise. *)
Lemma accumulate_ok_ind
    (Q : list row -> PyDict.dict (K := cell) (V := list float)
         -> PyDict.dict (K := cell) (V := list float) -> Prop) :
  (forall acc, Q [] acc acc) ->
  (forall r data acc d c raw x,
      row_get r "country" = Some c ->
      row_get r "gdp" = Some raw ->
      py_float raw = Some x ->
      Q data (append_gdp acc c x) d ->
      Q (r :: data) acc d) ->
  forall data acc d, accumulate data acc = Ok d -> Q data acc d.
Proof.
  intros Hnil Hcons. induction data as [| r data IH]; intros acc d; simpl.
  - intros H. injection H as <-. apply Hnil.
  - destruct (row_get r "country") as [c |] eqn:Hc; [| discriminate].
    destruct (row_get r "gdp") as [raw |] eqn:Hraw; [| discriminate].
    destruct (py_float raw) as [x |] eqn:Hx; [| discriminate].
    intros H. apply (Hcons r data acc d c raw x Hc Hraw Hx). now apply IH.
Qed.

Lemma countries_cons r data c :
  row_get r "country" = Some c -> countries (r :: data) = c :: countries data.
Proof. intros H. unfold countries. simpl. now rewrite H. Qed.

Lemma countries_In data c :
  In c (countries data) <-> exists r, In r data /\ row_get r "country" = Some c.
Proof.
  unfold countries. rewrite in_flat_map. split.
  - intros (r & Hr & Hc). exists r. split; [exact Hr |].
    destruct (row_get r "country"); simpl in Hc; [| contradiction].
    destruct Hc as [-> | []]. reflexivity.
  - intros (r & Hr & Hc). exists r. split; [exact Hr |].
    rewrite Hc. now left.
Qed.

Lemma accumulate_nodup data acc d :
  accumulate data acc = Ok d -> NoDup (PyDict.keys acc) -> NoDup (PyDict.keys d).
Proof.
  revert data acc d.
  apply (accumulate_ok_ind (fun _ acc d =>
           NoDup (PyDict.keys acc) -> NoDup (PyDict.keys d))).
  - auto.
  - intros r data acc d c raw x _ _ _ IH Hacc. apply IH.
    rewrite append_gdp_keys.
    destruct (PyDict.get cell_eqb acc c) eqn:Hget; [exact Hacc |].
    apply (get_None_keys cell_eqb cell_eqb_eq) in Hget.
    apply NoDup_rev in Hacc. rewrite <- (rev_involutive (_ ++ [c])).
    apply NoDup_rev. rewrite rev_app_distr. simpl. constructor; [| exact Hacc].
    now rewrite <- in_rev.
Qed.

Lemma accumulate_keys data acc d :
  accumulate data acc = Ok d ->
  forall c, In c (PyDict.keys d) <-> In c (PyDict.keys acc) \/ In c (countries data).
Proof.
  revert data acc d.
  apply (accumulate_ok_ind (fun data acc d =>
           forall c, In c (PyDict.keys d) <->
                     In c (PyDict.keys acc) \/ In c (countries data))).
  - intros acc c. simpl. tauto.
  - intros r data acc d c0 raw x Hc0 _ _ IH c.
    rewrite (countries_cons r data c0 Hc0), IH, append_gdp_keys_In.
    simpl. intuition congruence.
Qed.

Lemma gdps_of_cons r data c0 raw x c :
  row_get r "country" = Some c0 -> row_get r "gdp" = Some raw ->
  py_float raw = Some x ->
  gdps_of c (r :: data) =
  ((if cell_eqb c c0 then [x] else []) ++ gdps_of c data)%list.
Proof.
  intros Hc0 Hraw Hx. unfold gdps_of. simpl. rewrite Hc0, Hraw, Hx.
  now destruct (cell_eqb c c0).
Qed.

Lemma accumulate_gdps data acc d :
  accumulate data acc = Ok d ->
  forall c, gdps_so_far d c = (gdps_so_far acc c ++ gdps_of c data)%list.
Proof.
  revert data acc d.
  apply (accumulate_ok_ind (fun data acc d =>
           forall c, gdps_so_far d c = (gdps_so_far acc c ++ gdps_of c data)%list)).
  - intros acc c. simpl. now rewrite app_nil_r.
  - intros r data acc d c0 raw x Hc0 Hraw Hx IH c.
    rewrite IH, gdps_so_far_append, (gdps_of_cons r data c0 raw x c Hc0 Hraw Hx).
    now rewrite <- app_assoc.
Qed.

Lemma accumulate_nonempty data acc d :
  accumulate data acc = Ok d -> nonempty_values acc -> nonempty_values d.
Proof.
  revert data acc d.
  apply (accumulate_ok_ind (fun _ acc d =>
           nonempty_values acc -> nonempty_values d)).
  - auto.
  - intros r data acc d c raw x _ _ _ IH Hacc. apply IH.
    now apply append_gdp_nonempty.
Qed.

Lemma first_seen_before_later a b c l :
  a <> c -> b <> c -> first_seen_before a b l -> first_seen_before a b (c :: l).
Proof.
  intros Ha Hb (l1 & l2 & -> & Ha1 & Hb1 & Hab & Hb2).
  exists (c :: l1), l2. simpl. intuition congruence.
Qed.

Lemma accumulate_order data acc d :
  accumulate data acc = Ok d ->
  forall a b, before a b (PyDict.keys d) ->
    before a b (PyDict.keys acc)
    \/ (In a (PyDict.keys acc) /\ ~ In b (PyDict.keys acc) /\ In b (countries data))
    \/ (~ In a (PyDict.keys acc) /\ ~ In b (PyDict.keys acc)
        /\ first_seen_before a b (countries data)).
Proof.
  revert data acc d.
  apply (accumulate_ok_ind (fun data acc d =>
    forall a b, before a b (PyDict.keys d) ->
      before a b (PyDict.keys acc)
      \/ (In a (PyDict.keys acc) /\ ~ In b (PyDict.keys acc) /\ In b (countries data))
      \/ (~ In a (PyDict.keys acc) /\ ~ In b (PyDict.keys acc)
          /\ first_seen_before a b (countries data)))).
  - intros acc a b H. now left.
  - intros r data acc d c raw x Hc _ _ IH a b Hab.
    rewrite (countries_cons r data c Hc).
    specialize (IH a b Hab).
    rewrite !append_gdp_keys_In in IH. rewrite append_gdp_keys in IH.
    destruct (PyDict.get cell_eqb acc c) as [gdps |] eqn:Hget.
    + assert (Hin : In c (PyDict.keys acc)).
      { apply (get_In_items cell_eqb cell_eqb_eq) in Hget.
        change c with (fst (c, gdps)). now apply in_map. }
      destruct IH as [H | [(Ha & Hb & Hbc) | (Ha & Hb & Hfirst)]].
      * now left.
      * right. left. split; [| split]; [membership | membership | now right].
      * right. right. split; [| split]; [membership | membership |].
        apply first_seen_before_later; [| | exact Hfirst]; intros ->; tauto.
    + apply (get_None_keys cell_eqb cell_eqb_eq) in Hget.
      destruct IH as [H | [(Ha & Hb & Hbc) | (Ha & Hb & Hfirst)]].
      * apply before_app_one in H. destruct H as [H | [Ha ->]]; [now left |].
        right. left. split; [| split]; [exact Ha | exact Hget | now left].
      * destruct Ha as [Ha | ->].
        -- right. left. split; [| split]; [exact Ha | membership | now right].
        -- right. right. split; [| split]; [exact Hget | membership |].
           exists [], (countries data). simpl.
           split; [reflexivity |]. split; [tauto |]. split; [tauto |].
           split; [| exact Hbc]. intros ->. tauto.
      * right. right. split; [| split]; [membership | membership |].
        apply first_seen_before_later; [| | exact Hfirst]; intros ->; tauto.
Qed.

Lemma averages_nonempty d :
  nonempty_values d ->
  averages d = Ok (map (fun kv => (fst kv, mean (snd kv))) d).
Proof.
  induction d as [| [c gdps] d IH]; intros Hd; simpl; [reflexivity |].
  assert (Hg : gdps <> []) by (apply (Hd c); now left).
  destruct gdps as [| g gdps]; [congruence |].
  rewrite IH; [reflexivity |].
  intros c' gdps' Hin. apply (Hd c'). now right.
Qed.

(** What [generate] returns when it returns: the sorted means of the
    accumulated dictionary. *)
Lemma generate_ok data rep :
  generate data = Ok rep ->
  exists d,
    accumulate data [] = Ok d
    /\ rep = sort_reverse (fun x y => flt (snd x) (snd y))
               (map (fun kv => (fst kv, mean (snd kv))) d).
Proof.
  unfold generate. destruct (accumulate data []) as [d | e] eqn:Hacc;
    [| discriminate].
  cbn [bind]. rewrite averages_nonempty.
  - cbn [bind]. intros H. injection H as <-. now exists d.
  - apply (accumulate_nonempty data [] d Hacc). intros c gdps [].
Qed.

Lemma map_fst_means (d : PyDict.dict (K := cell) (V := list float)) :
  map fst (map (fun kv => (fst kv, mean (snd kv))) d) = PyDict.keys d.
Proof. unfold PyDict.keys. rewrite map_map. reflexivity. Qed.

(** ** The report *)

(** C1.  When [generate] returns, the countries of the report are the
    countries of the rows, each once, and the average of a country is the
    sum of the [gdp] values of its rows divided by their number. *)
Theorem generate_one_pair_per_country data rep :
  generate data = Ok rep ->
  NoDup (map fst rep)
  /\ (forall c, In c (map fst rep) <->
                exists r, In r data /\ row_get r "country" = Some c)
  /\ (forall c avg, In (c, avg) rep ->
        gdps_of c data <> []
        /\ avg = fdiv (py_sum (gdps_of c data))
                      (float_of_Z (Z.of_nat (List.length (gdps_of c data))))).
Proof.
  intros Hgen. destruct (generate_ok data rep Hgen) as (d & Hacc & ->).
  set (ltf := fun x y : report_row => flt (snd x) (snd y)).
  set (avgs := map (fun kv => (fst kv, mean (snd kv))) d).
  pose proof (sort_reverse_perm ltf avgs) as Hperm.
  assert (Hkeys : Permutation (map fst (sort_reverse ltf avgs)) (PyDict.keys d)).
  { rewrite <- map_fst_means. now apply Permutation_map. }
  assert (Hnd : NoDup (PyDict.keys d)).
  { apply (accumulate_nodup data [] d Hacc). constructor. }
  split; [| split].
  - apply (Permutation_NoDup (Permutation_sym Hkeys) Hnd).
  - intros c. rewrite <- countries_In.
    assert (In c (PyDict.keys d) <-> In c (countries data)).
    { rewrite (accumulate_keys data [] d Hacc). simpl. tauto. }
    split; intros H'.
    + apply H. now apply (Permutation_in _ Hkeys).
    + apply (Permutation_in _ (Permutation_sym Hkeys)). now apply H.
  - intros c avg Hin. apply (Permutation_in _ Hperm) in Hin.
    unfold avgs in Hin. apply in_map_iff in Hin.
    destruct Hin as ([c' gdps] & Heq & Hin). simpl in Heq.
    injection Heq as -> <-.
    assert (Hgdps : gdps = gdps_of c data).
    { pose proof (accumulate_gdps data [] d Hacc c) as Hg.
      unfold gdps_so_far in Hg at 1.
      rewrite (In_items_get cell_eqb cell_eqb_eq d c gdps Hnd Hin) in Hg.
      exact Hg. }
    subst gdps. split; [| reflexivity].
    apply (accumulate_nonempty data [] d Hacc) with (c := c); [| exact Hin].
    intros ? ? [].
Qed.

(** ** The order of the report *)

(** C2, on three countries of which the second has the [gdp] cell [nan]:
    comparing with NaN is never true, so the sort leaves the three
    averages as they stand, and the report has the average 1.0 before the
    greater average 2.0. *)
Example generate_nan_breaks_order :
  let data := [mkRow [("country", Str "A"); ("gdp", Str "1")] None;
               mkRow [("country", Str "B"); ("gdp", Str "nan")] None;
               mkRow [("country", Str "C"); ("gdp", Str "2")] None] in
  let one := S754_finite false 4503599627370496 (-52) in
  let two := S754_finite false 4503599627370496 (-51) in
  generate data = Ok [(Str "A", one); (Str "B", S754_nan); (Str "C", two)]
  /\ before (Str "A", one) (Str "C", two)
            [(Str "A", one); (Str "B", S754_nan); (Str "C", two)]
  /\ flt one two = true
  /\ fle two one = false.
Proof.
  cbv zeta. split; [vm_compute; reflexivity |]. split; [| split; reflexivity].
  exists [], [(Str "B", S754_nan);
              (Str "C", S754_finite false 4503599627370496 (-51))].
  split; [reflexivity | right; now left].
Qed.

(** C2 as amended.  When [generate] returns a report in which no average
    is NaN, the report is in descending order of the averages: an average
    is at least every average behind it; and of two countries whose
    averages are equal, the one placed first is the one that appears first
    in the data set. *)
Theorem generate_sorted_stable data rep :
  generate data = Ok rep ->
  (forall c avg, In (c, avg) rep -> avg <> S754_nan) ->
  forall p q, before p q rep ->
    fle (snd q) (snd p) = true
    /\ (feq (snd p) (snd q) = true ->
        first_seen_before (fst p) (fst q) (countries data)).
Proof.
  intros Hgen Hnan p q Hpq.
  destruct (generate_ok data rep Hgen) as (d & Hacc & ->).
  set (ltf := fun x y : report_row => flt (snd x) (snd y)) in *.
  set (avgs := map (fun kv => (fst kv, mean (snd kv))) d) in *.
  pose proof (sort_reverse_perm ltf avgs) as Hperm.
  assert (HP : forall x, In x (sort_reverse ltf avgs) -> snd x <> S754_nan).
  { intros [c avg] Hin. now apply (Hnan c). }
  destruct (before_In p q _ Hpq) as [Hp Hq].
  split.
  - apply fle_of_flt_false; [now apply HP | now apply HP |].
    apply (sort_reverse_descending ltf (fun x => snd x <> S754_nan)) with (l := avgs).
    + intros x y Hx Hy. now apply flt_asym.
    + intros x y z Hx Hy Hz. now apply flt_false_trans.
    + intros x Hx. apply HP. now apply (Permutation_in _ (Permutation_sym Hperm)).
    + exact Hpq.
  - intros Heq.
    assert (Hbefore : before p q avgs).
    { apply (sort_reverse_stable ltf); [exact Hpq |]. now apply feq_flt_false. }
    apply (before_map fst) in Hbefore. unfold avgs in Hbefore.
    rewrite map_fst_means in Hbefore.
    destruct (accumulate_order data [] d Hacc _ _ Hbefore)
      as [H | [(H & _) | (_ & _ & H)]].
    + now apply before_nil in H.
    + destruct H.
    + exact H.
Qed.

(** ** The cells of the table *)

Lemma length_append (s t : string) :
  String.length (s ++ t) = String.length s + String.length t.
Proof. induction s as [| c s IH]; simpl; [reflexivity | now rewrite IH]. Qed.

Lemma all_digits_uint (u : Decimal.uint) :
  all_digits (NilEmpty.string_of_uint u) = true.
Proof. induction u; simpl; auto. Qed.

Lemma str_Z_digits n : str_Z n <> EmptyString /\ all_digits (str_Z n) = true.
Proof.
  unfold str_Z, NilZero.string_of_uint.
  destruct (N.to_uint (Z.to_N n)) as [| u | u | u | u | u | u | u | u | u | u];
    split; try discriminate; try reflexivity;
    simpl; apply all_digits_uint.
Qed.

Lemma digit_char_is_digit d : (0 <= d < 10)%Z -> is_digit (digit_char d) = true.
Proof.
  intros Hd.
  assert (H : (d = 0 \/ d = 1 \/ d = 2 \/ d = 3 \/ d = 4 \/ d = 5 \/ d = 6
               \/ d = 7 \/ d = 8 \/ d = 9)%Z) by lia.
  repeat (destruct H as [-> | H]; [reflexivity |]). now subst.
Qed.

Lemma fixed2_two_decimals sign n : two_decimals (sign_str sign ++ fixed2 n).
Proof.
  exists sign, (str_Z (n / 100)), (digit_char ((n / 10) mod 10)),
    (digit_char (n mod 10)).
  destruct (str_Z_digits (n / 100)) as [Hne Hdigits].
  repeat split; try assumption.
  - apply digit_char_is_digit. apply Z.mod_pos_bound. lia.
  - apply digit_char_is_digit. apply Z.mod_pos_bound. lia.
Qed.

Lemma two_decimals_length text : two_decimals text -> 4 <= String.length text.
Proof.
  intros (sign & whole & d1 & d2 & -> & Hne & _).
  rewrite !length_append. destruct whole; [congruence |]. simpl. lia.
Qed.

Lemma prefix_app (needle text : string) :
  prefix needle text = true <-> exists post, text = needle ++ post.
Proof.
  revert text. induction needle as [| c needle IH]; intros text.
  - split; [intros _; now exists text | intros _; now destruct text].
  - destruct text as [| c' text]; simpl.
    + split; [discriminate | intros [post H]; discriminate H].
    + destruct (Ascii.ascii_dec c c') as [<- | Hc].
      * rewrite IH. split; intros [post H]; exists post; congruence.
      * split; [discriminate | intros [post H]; congruence].
Qed.

Lemma occurs_iff (needle text : string) :
  occurs needle text = true <-> substring_of needle text.
Proof.
  unfold substring_of. induction text as [| c text IH]; cbn [occurs].
  - rewrite orb_false_r, prefix_app. split.
    + intros [post H]. now exists EmptyString, post.
    + intros (pre & post & H). destruct pre; [now exists post | discriminate H].
  - rewrite orb_true_iff, IH, prefix_app. split.
    + intros [[post H] | (pre & post & H)].
      * now exists EmptyString, post.
      * exists (String c pre), post. simpl. now rewrite H.
    + intros (pre & post & H). destruct pre as [| c' pre].
      * left. now exists post.
      * right. exists pre, post. simpl in H. congruence.
Qed.

(** C9, at the report of the repository's test [test_average_gdp_format].
    [format] builds the cells "24388.50", "17848.50" and "4138.33", each
    with two digits after the point, and hands them to the renderer as
    text, with the renderer's default settings.  The renderer takes the
    second column for a column of numbers and shows each cell through the
    general format of a float: the table [format] returns holds the
    header, the countries, "24388.5", "17848.5" and "4138.33", and holds
    neither "24388.50" nor "17848.50", which the test looks for. *)
Theorem format_loses_second_decimal :
  let result := format Tabulate.tabulate format_test_report in
  table_data format_test_report
    = [(Str "United States", "24388.50"); (Str "China", "17848.50");
       (Str "Germany", "4138.33")]
  /\ Tabulate._column_type (map (fun r => Str (snd r)) (table_data format_test_report))
     = Tabulate.TFloat
  /\ map (fun r => Tabulate._format Tabulate.TFloat (Str (snd r)))
         (table_data format_test_report)
     = ["24388.5"; "17848.5"; "4138.33"]
  /\ occurs "Country" result = true
  /\ occurs "Average GDP (billions USD)" result = true
  /\ occurs "United States" result = true
  /\ occurs "China" result = true
  /\ occurs "Germany" result = true
  /\ occurs "24388.5" result = true
  /\ occurs "24388.50" result = false
  /\ occurs "17848.5" result = true
  /\ occurs "17848.50" result = false
  /\ occurs "4138.33" result = true.
Proof.
  cbv zeta. repeat split; vm_compute; reflexivity.
Qed.

(** ** The command line *)


Lemma read_each_trace fs filepaths :
  forall all_data errors,
  exists r opens,
    Forall (fun ev => is_open ev = true) opens
    /\ forall t, read_each fs filepaths all_data errors t = (r, (t ++ opens)%list).
Proof.
  induction filepaths as [| p rest IH]; intros all_data errors.
  - exists (Ok (all_data, errors)), []. split; [constructor |].
    intros t. simpl. unfold ret. now rewrite app_nil_r.
  - assert (Hstep : forall st,
              exists r opens,
                Forall (fun ev => is_open ev = true) opens
                /\ forall t, read_each fs rest (fst st) (snd st) (t ++ [EvOpen p])%list
                             = (r, (t ++ opens)%list)).
    { intros st. destruct (IH (fst st) (snd st)) as (r & opens & Hopens & Hrun).
      exists r, (EvOpen p :: opens). split; [now constructor |].
      intros t. rewrite Hrun. now rewrite <- app_assoc. }
    cbn [read_each]. unfold io_bind, try_except.
    destruct (load fs p) as [data | e] eqn:Hload.
    + destruct (Hstep ((all_data ++ data)%list, errors)) as (r & opens & Hopens & Hrun).
      exists r, opens. split; [exact Hopens |].
      intros t. rewrite read_csv_file_run, Hload. unfold ret. apply Hrun.
    + destruct e as [m | m | m | m | | c].
      1: destruct (Hstep (all_data, (errors ++ [not_found_message p])%list))
           as (r & opens & Hopens & Hrun).
      2: destruct (Hstep (all_data,
                          (errors ++ [read_error_message p (ValueError m)])%list))
           as (r & opens & Hopens & Hrun).
      3: destruct (Hstep (all_data,
                          (errors ++ [read_error_message p (csv_Error m)])%list))
           as (r & opens & Hopens & Hrun).
      4: destruct (Hstep (all_data,
                          (errors ++ [read_error_message p (Exception m)])%list))
           as (r & opens & Hopens & Hrun).
      1-4: exists r, opens; (split; [exact Hopens |]);
           intros t; rewrite read_csv_file_run, Hload; cbn [is_Exception];
           unfold ret; apply Hrun.
      * exists (Raise KeyboardInterrupt), [EvOpen p].
        split; [now repeat constructor |].
        intros t. now rewrite read_csv_file_run, Hload.
      * exists (Raise (SystemExit c)), [EvOpen p].
        split; [now repeat constructor |].
        intros t. now rewrite read_csv_file_run, Hload.
Qed.

Lemma read_csv_files_trace fs filepaths :
  Forall (fun ev => is_open ev = true) (opens_of fs filepaths)
  /\ forall t, read_csv_files fs filepaths t =
               (load_all fs filepaths, (t ++ opens_of fs filepaths)%list).
Proof.
  destruct (read_each_trace fs filepaths [] []) as (r & opens & Hopens & Hrun).
  assert (H : forall t, read_csv_files fs filepaths t =
                        (match r with
                         | Ok st =>
                             match snd st with
                             | [] => Ok (fst st)
                             | errors => Raise (ValueError (join nl errors))
                             end
                         | Raise e => Raise e
                         end, (t ++ opens)%list)).
  { intros t. unfold read_csv_files, io_bind. rewrite Hrun.
    destruct r as [st | e]; [| reflexivity].
    destruct (snd st); reflexivity. }
  unfold load_all, opens_of. rewrite (H []). cbn [fst snd app].
  split; [exact Hopens | exact H].
Qed.

Lemma stdout_of_opens opens :
  Forall (fun ev => is_open ev = true) opens -> stdout_of opens = [].
Proof.
  unfold stdout_of. induction 1 as [| ev opens Hev _ IH]; simpl; [reflexivity |].
  destruct ev; try discriminate. exact IH.
Qed.

Lemma parse_tokens_report choices args :
  forall fs_ rp c extras ns,
    (forall r, rp = Some r -> In r choices) ->
    parse_tokens choices args fs_ rp c extras = Parsed ns ->
    In (report ns) choices.
Proof.
  assert (Hfinish : forall fs_ rp extras ns,
            (forall r, rp = Some r -> In r choices) ->
            finish fs_ rp extras = Parsed ns -> In (report ns) choices).
  { intros fs_ rp extras ns Hrp. unfold finish.
    destruct fs_ as [f |], rp as [r |], extras; try discriminate.
    intros H. injection H as <-. simpl. now apply Hrp. }
  induction args as [| a args IH]; intros fs_ rp c extras ns Hrp;
    cbn [parse_tokens].
  - destruct c as [| [| v vals] |]; try discriminate; now apply Hfinish.
  - destruct (is_option_string a).
    + destruct c as [| [| v vals] |]; try discriminate;
        destruct (String.eqb a "--files"); try (now apply IH);
        destruct (String.eqb a "--report"); try (now apply IH);
        destruct (String.eqb a "-h" || String.eqb a "--help");
        try discriminate; now apply IH.
    + destruct c as [| vals |].
      * now apply IH.
      * now apply IH.
      * destruct (existsb (String.eqb a) choices) eqn:Hex; [| discriminate].
        apply IH. intros r Hr. injection Hr as <-.
        apply existsb_exists in Hex. destruct Hex as (x & Hx & Heq).
        apply String.eqb_eq in Heq. now subst.
Qed.




Lemma create_registered tabulate name :
  In name (PyDict.keys (_reporters tabulate)) ->
  create tabulate name = Ok (AverageGDPReporter tabulate).
Proof.
  intros [<- | []]. reflexivity.
Qed.

Lemma main_usage_error tabulate fs argv message :
  parse_args (PyDict.keys (_reporters tabulate)) (tl argv)
    = UsageError message ->
  run tabulate fs argv =
    (2%Z, [EvStderr (usage (hd EmptyString argv) (PyDict.keys (_reporters tabulate)));
           EvStderr (hd EmptyString argv ++ ": error: " ++ message ++ nl)]).
Proof.
  intros Hparse. unfold run, main, main_try, parse_arguments, try_except.
  unfold io_bind at 1. rewrite Hparse. reflexivity.
Qed.

Lemma main_loaded tabulate fs argv args :
  parse_args (PyDict.keys (_reporters tabulate)) (tl argv)
    = Parsed args ->
  let reading :=
    EvStderr (("Reading " ++ str_nat (List.length (files args)) ++ " file(s)...")
                ++ nl) in
  match load_all fs (files args) with
  | Raise e =>
      run tabulate fs argv =
      match e with
      | SystemExit code => (code, reading :: opens_of fs (files args))
      | KeyboardInterrupt =>
          (130%Z, (reading :: opens_of fs (files args)
                     ++ [EvStderr ((nl ++ "Operation cancelled by user") ++ nl)])%list)
      | FileNotFoundError _ | ValueError _ =>
          (1%Z, (reading :: opens_of fs (files args)
                   ++ [EvStderr (("Error: " ++ str_exn e) ++ nl)])%list)
      | _ =>
          (1%Z, (reading :: opens_of fs (files args)
                   ++ [EvStderr (("Unexpected error: " ++ str_exn e) ++ nl)])%list)
      end
  | Ok data =>
      let loaded :=
        EvStderr (("Loaded " ++ str_nat (List.length data) ++ " records") ++ nl) in
      match data with
      | [] =>
          run tabulate fs argv =
          (1%Z, (reading :: opens_of fs (files args)
                   ++ [loaded;
                       EvStderr ("No data found in the provided files." ++ nl)])%list)
      | _ =>
          match generate data with
          | Ok rd =>
              run tabulate fs argv =
              (0%Z, (reading :: opens_of fs (files args)
                       ++ [loaded; EvStdout ((nl ++ format tabulate rd) ++ nl)])%list)
          | Raise (ValueError msg) =>
              run tabulate fs argv =
              (1%Z, (reading :: opens_of fs (files args)
                       ++ [loaded; EvStderr (("Error: " ++ msg) ++ nl)])%list)
          | Raise _ => True
          end
      end
  end.
Proof.
  intros Hparse reading.
  pose proof (parse_tokens_report _ _ None None Top [] args
                (fun r H => ltac:(discriminate H)) Hparse) as Hreport.
  apply create_registered in Hreport.
  destruct (read_csv_files_trace fs (files args)) as [_ Hrun].
  assert (Hstart :
    main_try tabulate fs argv [] =
    (let t := (reading :: opens_of fs (files args))%list in
     match load_all fs (files args) with
     | Raise e => (Raise e, t)
     | Ok data =>
         let t2 := (t ++ [EvStderr (("Loaded " ++ str_nat (List.length data)
                                       ++ " records") ++ nl)])%list in
         match data with
         | [] => (Raise (SystemExit 1),
                  (t2 ++ [EvStderr ("No data found in the provided files." ++ nl)])%list)
         | _ =>
             match generate data with
             | Ok rd => (Ok tt, (t2 ++ [EvStdout ((nl ++ format tabulate rd) ++ nl)])%list)
             | Raise e => (Raise e, t2)
             end
         end
     end)).
  { unfold main_try, parse_arguments. unfold io_bind at 1. rewrite Hparse.
    unfold ret at 1. unfold io_bind at 1. unfold print_err at 1, emit at 1.
    cbn [app]. unfold io_bind at 1. rewrite Hrun. cbn [app]. fold reading.
    destruct (load_all fs (files args)) as [data | e]; [| reflexivity].
    unfold io_bind at 1. unfold print_err at 1, emit at 1.
    unfold io_bind at 1.
    destruct data as [| r0 data].
    - reflexivity.
    - unfold ret at 1. unfold io_bind at 1, lift at 1. rewrite Hreport.
      unfold io_bind at 1, lift at 1. cbn [reporter_generate AverageGDPReporter].
      destruct (generate (r0 :: data)) as [rd | e]; reflexivity. }
  cbv zeta in Hstart.
  unfold run, main, try_except. rewrite Hstart.
  destruct (load_all fs (files args)) as [data | e].
  - destruct data as [| r0 data].
    + cbn. now rewrite <- app_assoc.
    + destruct (generate (r0 :: data)) as [rd | e].
      * cbn. now rewrite <- app_assoc.
      * destruct e; try exact I. cbn. now rewrite <- !app_assoc.
  - destruct e; reflexivity.
Qed.

Lemma stdout_of_run_prefix reading opens tail :
  is_stdout reading = false ->
  Forall (fun ev => is_open ev = true) opens ->
  stdout_of (reading :: opens ++ tail) = stdout_of tail.
Proof.
  intros Hreading Hopens. unfold stdout_of. cbn [filter]. rewrite Hreading.
  rewrite filter_app. fold (stdout_of opens).
  now rewrite (stdout_of_opens opens Hopens).
Qed.


(** ** The theorems at sample data *)

Lemma generate_one_pair_per_country_witness :
  generate basic_data = Ok basic_report
  /\ (NoDup (map fst basic_report)
      /\ (forall c, In c (map fst basic_report) <->
                    exists r, In r basic_data /\ row_get r "country" = Some c)
      /\ (forall c avg, In (c, avg) basic_report ->
            gdps_of c basic_data <> []
            /\ avg = fdiv (py_sum (gdps_of c basic_data))
                          (float_of_Z (Z.of_nat (List.length (gdps_of c basic_data)))))).
Proof.
  split; [vm_compute; reflexivity |].
  apply (generate_one_pair_per_country basic_data basic_report).
  vm_compute. reflexivity.
Defined.

Lemma generate_sorted_stable_witness :
  generate tied_data = Ok tied_report
  /\ (forall c avg, In (c, avg) tied_report -> avg <> S754_nan)
  /\ before (Str "A", S754_finite false 4503599627370496 (-51))
            (Str "C", S754_finite false 4503599627370496 (-51)) tied_report
  /\ (fle (S754_finite false 4503599627370496 (-51))
          (S754_finite false 4503599627370496 (-51)) = true
      /\ (feq (S754_finite false 4503599627370496 (-51))
              (S754_finite false 4503599627370496 (-51)) = true ->
          first_seen_before (Str "A") (Str "C") (countries tied_data))).
Proof.
  assert (Hgen : generate tied_data = Ok tied_report) by (vm_compute; reflexivity).
  assert (Hnan : forall c avg, In (c, avg) tied_report -> avg <> S754_nan).
  { intros c avg [H | [H | [H | []]]]; injection H as _ <-; discriminate. }
  assert (Hbefore : before (Str "A", S754_finite false 4503599627370496 (-51))
                           (Str "C", S754_finite false 4503599627370496 (-51))
                           tied_report).
  { exists [(Str "B", S754_finite false 6755399441055744 (-51))],
      [(Str "C", S754_finite false 4503599627370496 (-51))].
    split; [reflexivity | now left]. }
  split; [exact Hgen |]. split; [exact Hnan |]. split; [exact Hbefore |].
  exact (generate_sorted_stable tied_data tied_report Hgen Hnan _ _ Hbefore).
Defined.

Lemma read_csv_files_collects_all_witness :
  let filepaths := ["a.csv"; "b.csv"] in
  (forall p e, In p filepaths -> load sample_fs p = Raise e -> is_Exception e = true)
  /\ snd (read_csv_files sample_fs filepaths []) = [EvOpen "a.csv"; EvOpen "b.csv"]
  /\ fst (read_csv_files sample_fs filepaths [])
     = Raise (ValueError "File not found: b.csv").
Proof.
  cbv zeta.
  assert (Hexc : forall p e, In p ["a.csv"; "b.csv"] ->
                   load sample_fs p = Raise e -> is_Exception e = true).
  { intros p e [<- | [<- | []]] H; vm_compute in H;
      [discriminate H | injection H as <-; reflexivity]. }
  split; [exact Hexc |].
  destruct (read_csv_files_collects_all sample_fs ["a.csv"; "b.csv"] [] Hexc)
    as (Htrace & _ & Hfail & _).
  split; [exact Htrace |].
  apply Hfail. vm_compute. discriminate.
Defined.

Lemma generate_missing_column_witness :
  let data := [row_of "USA" "25462"; mkRow [("name", Str "B")] None] in
  (exists r, In r data /\ lacks_column r = true)
  /\ generate data = Raise (ValueError schema_message).
Proof.
  cbv zeta.
  assert (Hex : exists r, In r [row_of "USA" "25462"; mkRow [("name", Str "B")] None]
                          /\ lacks_column r = true).
  { exists (mkRow [("name", Str "B")] None). split; [right; now left | reflexivity]. }
  split; [exact Hex |].
  apply (proj2 (generate_missing_column _ Hex) [row_of "USA" "25462"]
           (mkRow [("name", Str "B")] None) []).
  - reflexivity.
  - reflexivity.
  - intros r' [<- | []]. vm_compute. reflexivity.
Defined.


Lemma read_csv_file_skips_blank_rows_witness :
  sample_fs "a.csv"
    = Opens (mkCsv [["country"; "gdp"];
                    [EmptyString; EmptyString]; ["US"; "1"]; ["X"; EmptyString]]
                   None)
  /\ load sample_fs "a.csv" = Ok [row_of "US" "1"; row_of "X" EmptyString].
Proof.
  assert (Hfs : sample_fs "a.csv"
                = Opens (mkCsv [["country"; "gdp"];
                                [EmptyString; EmptyString]; ["US"; "1"];
                                ["X"; EmptyString]] None))
    by (vm_compute; reflexivity).
  split; [exact Hfs |].
  destruct (read_csv_file_skips_blank_rows sample_fs "a.csv" "country" ["gdp"]
              [[EmptyString; EmptyString]; ["US"; "1"]; ["X"; EmptyString]]
              Hfs) as (_ & _ & Hkept & _).
  apply Hkept. vm_compute. discriminate.
Defined.

Lemma short_record_bound_to_none_witness :
  let fieldnames := ["country"; "gdp"] in
  let record := ["US"] in
  record <> []
  /\ (List.length record < List.length fieldnames)%nat
  /\ row_get (make_row fieldnames record) "gdp" = Some PyNone
  /\ all_empty (make_row fieldnames record) = false
  /\ generate [row_of "USA" "1"; make_row fieldnames record]
     = Raise (ValueError "Invalid GDP value: None").
Proof.
  cbv zeta.
  assert (Hne : ["US"] <> @nil string) by discriminate.
  assert (Hlen : (List.length ["US"] < List.length ["country"; "gdp"])%nat)
    by (simpl; lia).
  destruct (short_record_bound_to_none ["country"; "gdp"] ["US"] Hne Hlen)
    as (Hnone & Hall & _ & Hgen).
  split; [exact Hne |]. split; [exact Hlen |]. split; [| split].
  - apply Hnone. now left.
  - exact Hall.
  - apply (Hgen (or_introl eq_refl) (or_introl eq_refl) [row_of "USA" "1"] []).
    intros r' [<- | []]. vm_compute. reflexivity.
Defined.


(** * Further properties *)

(** ** [generate]: when it returns and what it raises *)

Lemma generate_total data :
  match first_error data with
  | Some e => generate data = Raise e
  | None => exists rep, generate data = Ok rep
  end.
Proof.
  pose proof (accumulate_first_error data []) as Hacc.
  destruct (first_error data) as [e |] eqn:Hfirst.
  - now apply generate_first_error.
  - destruct Hacc as [d Hd]. unfold generate. rewrite Hd. cbn [bind].
    rewrite averages_nonempty.
    + cbn [bind]. eexists. reflexivity.
    + apply (accumulate_nonempty data [] d Hd). intros c gdps [].
Qed.

Lemma row_error_kinds r e :
  row_error r = Some e ->
  e = ValueError schema_message
  \/ exists raw, row_get r "gdp" = Some raw /\ py_float raw = None
                 /\ e = ValueError (invalid_message raw).
Proof.
  unfold row_error.
  destruct (row_get r "country"); [| intros H; injection H as <-; now left].
  destruct (row_get r "gdp") as [raw |]; [| intros H; injection H as <-; now left].
  destruct (py_float raw) eqn:Hraw; [discriminate |].
  intros H. injection H as <-. right. now exists raw.
Qed.

(** X1.  [generate] returns a report exactly when every row has the
    [country] and [gdp] keys and a [gdp] cell that [float] takes;
    otherwise it raises a [ValueError], and the only messages are the one
    of the missing columns and "Invalid GDP value: " followed by a raw
    cell of the data set that is not a numeral.  No other exception (in
    particular no division by zero) leaves [generate]. *)
Theorem generate_returns_iff_rows_ok data :
  ((exists rep, generate data = Ok rep) <->
   (forall r, In r data -> row_ok r = true))
  /\ (forall e, generate data = Raise e ->
        e = ValueError schema_message
        \/ exists r raw,
             In r data /\ row_get r "gdp" = Some raw /\ py_float raw = None
             /\ e = ValueError (invalid_message raw)).
Proof.
  pose proof (generate_total data) as Htotal.
  destruct (first_error data) as [e0 |] eqn:Hfirst.
  - split.
    + split.
      * intros [rep Hrep]. congruence.
      * intros Hok. apply first_error_none in Hok. congruence.
    + intros e He. assert (e = e0) by congruence. subst e0.
      destruct (first_error_split data e Hfirst) as (pre & r & post & -> & _ & Hr).
      destruct (row_error_kinds r e Hr) as [-> | (raw & Hraw & Hbad & ->)];
        [now left |].
      right. exists r, raw. repeat split; try assumption.
      apply in_or_app. right. now left.
  - split.
    + split; [| intros _; exact Htotal].
      intros _. now apply first_error_none.
    + intros e He. destruct Htotal as [rep Hrep]. congruence.
Qed.

(** ** [generate]: the columns it reads *)

Lemma accumulate_same_columns data data' :
  Forall2 same_columns data data' ->
  forall acc, accumulate data acc = accumulate data' acc.
Proof.
  induction 1 as [| r r' data data' [Hc Hg] _ IH]; intros acc; simpl;
    [reflexivity |].
  rewrite <- Hc, <- Hg.
  destruct (row_get r "country") as [c |]; [| reflexivity].
  destruct (row_get r "gdp") as [raw |]; [| reflexivity].
  destruct (py_float raw); [apply IH | reflexivity].
Qed.

(** X2.  [generate] reads the [country] and [gdp] columns only: two data
    sets whose rows agree, one by one, on these two columns give the same
    report or the same error, whatever their other columns hold. *)
Theorem generate_ignores_other_columns data data' :
  Forall2 same_columns data data' -> generate data = generate data'.
Proof.
  intros H. unfold generate. now rewrite (accumulate_same_columns data data' H).
Qed.

Lemma generate_ignores_other_columns_witness :
  Forall2 same_columns wide_data narrow_data
  /\ generate wide_data = generate narrow_data.
Proof.
  assert (H : Forall2 same_columns wide_data narrow_data).
  { repeat constructor. }
  split; [exact H | exact (generate_ignores_other_columns _ _ H)].
Defined.

(** ** [generate]: the size of the report *)

Lemma countries_length data : (List.length (countries data) <= List.length data)%nat.
Proof.
  induction data as [| r data IH]; simpl; [lia |].
  unfold countries in *. simpl. rewrite length_app.
  destruct (row_get r "country"); simpl; lia.
Qed.

(** X3.  A report has at most as many rows as the data set, and it is
    empty only for the empty data set. *)
Theorem generate_report_size data rep :
  generate data = Ok rep ->
  (List.length rep <= List.length data)%nat /\ (rep = [] <-> data = []).
Proof.
  intros Hgen. destruct (generate_ok data rep Hgen) as (d & Hacc & Hrep).
  assert (Hlen : List.length rep = List.length (PyDict.keys d)).
  { rewrite Hrep, (Permutation_length (sort_reverse_perm _ _)).
    unfold PyDict.keys. now rewrite !length_map. }
  assert (Hnd : NoDup (PyDict.keys d))
    by (apply (accumulate_nodup data [] d Hacc); constructor).
  assert (Hincl : incl (PyDict.keys d) (countries data)).
  { intros c Hc. apply (accumulate_keys data [] d Hacc) in Hc.
    destruct Hc as [[] | Hc]. exact Hc. }
  split.
  - rewrite Hlen. pose proof (NoDup_incl_length Hnd Hincl).
    pose proof (countries_length data). lia.
  - split.
    + intros ->. destruct data as [| r data]; [reflexivity |]. exfalso.
      assert (Hok : row_ok r = true).
      { apply (proj1 (first_error_none (r :: data))); [| now left].
        pose proof (generate_total (r :: data)) as Ht.
        destruct (first_error (r :: data)); [congruence | reflexivity]. }
      unfold row_ok in Hok.
      destruct (row_get r "country") as [c |] eqn:Hc; [| discriminate].
      assert (Hin : In c (PyDict.keys d)).
      { apply (accumulate_keys (r :: data) [] d Hacc). right.
        apply countries_In. exists r. split; [now left | exact Hc]. }
      simpl in Hlen. symmetry in Hlen. apply length_zero_iff_nil in Hlen.
      rewrite Hlen in Hin. exact Hin.
    + intros ->. clear - Hgen. cbv in Hgen. now injection Hgen.
Qed.

Lemma generate_report_size_witness :
  generate basic_data = Ok basic_report
  /\ (List.length basic_report <= List.length basic_data)%nat
  /\ (basic_report = [] <-> basic_data = []).
Proof.
  assert (H : generate basic_data = Ok basic_report) by (vm_compute; reflexivity).
  split; [exact H | exact (generate_report_size _ _ H)].
Defined.

(** ** [read_csv_file]: what it returns and what it raises *)

Lemma read_opened_cases filepath f :
  read_opened filepath f =
  match records f with
  | [] =>
      match ending f with
      | None => Raise (ValueError (no_headers_message filepath))
      | Some e => Raise e
      end
  | [] :: _ => Raise (ValueError (no_headers_message filepath))
  | (name :: names) :: recs =>
      match ending f with
      | None => Ok (kept_rows (name :: names) recs)
      | Some e => Raise e
      end
  end.
Proof.
  unfold read_opened, fieldnames_of.
  destruct (records f) as [| [| name names] recs]; cbn [bind tl].
  - destruct (ending f); reflexivity.
  - reflexivity.
  - now rewrite read_rows_spec.
Qed.

Lemma load_cases fs filepath :
  load fs filepath =
  match fs filepath with
  | OpenRaises (csv_Error msg) =>
      Raise (ValueError (parse_error_message filepath msg))
  | OpenRaises e => Raise e
  | Opens f =>
      match read_opened filepath f with
      | Raise (csv_Error msg) =>
          Raise (ValueError (parse_error_message filepath msg))
      | Raise e => Raise e
      | Ok [] => Raise (ValueError (no_data_message filepath))
      | Ok data => Ok data
      end
  end.
Proof.
  unfold load, read_csv_file, open, io_bind, try_except, emit, lift, raise, ret.
  simpl.
  destruct (fs filepath) as [e | f].
  - destruct e; reflexivity.
  - destruct (read_opened filepath f) as [data | e].
    + destruct data; reflexivity.
    + destruct e; reflexivity.
Qed.

(** A load that returns: the file opened, had a header with a name in it,
    was read to its end, and the data are the rows kept, of which there is
    one at least. *)
Lemma load_ok_inv fs filepath data :
  load fs filepath = Ok data ->
  exists name names recs,
    fs filepath = Opens (mkCsv ((name :: names) :: recs) None)
    /\ data = kept_rows (name :: names) recs
    /\ data <> [].
Proof.
  rewrite load_cases. destruct (fs filepath) as [e | [recs end_]].
  - destruct e; discriminate.
  - rewrite read_opened_cases. cbn [records ending].
    destruct recs as [| [| name names] recs].
    + destruct end_ as [e |]; [destruct e |]; discriminate.
    + discriminate.
    + destruct end_ as [e |]; [destruct e; discriminate |].
      destruct (kept_rows (name :: names) recs) as [| r rs] eqn:Hkept;
        [discriminate |].
      intros H. injection H as <-.
      exists name, names, recs. repeat split; [now rewrite Hkept | discriminate].
Qed.

(** X4.  [read_csv_file] never returns an empty list and never raises
    [csv.Error]; the [FileNotFoundError] of [open] leaves it as it is. *)
Theorem read_csv_file_never_empty fs filepath :
  load fs filepath <> Ok []
  /\ (forall msg, load fs filepath <> Raise (csv_Error msg))
  /\ (forall msg, fs filepath = OpenRaises (FileNotFoundError msg) ->
                  load fs filepath = Raise (FileNotFoundError msg)).
Proof.
  split; [| split].
  - intros H. destruct (load_ok_inv fs filepath [] H) as (_ & _ & _ & _ & _ & Hne).
    now apply Hne.
  - intros msg. rewrite load_cases. destruct (fs filepath) as [e | f].
    + destruct e; discriminate.
    + destruct (read_opened filepath f) as [[| r data] | e];
        try discriminate. destruct e; discriminate.
  - intros msg Hfs. rewrite load_cases, Hfs. reflexivity.
Qed.

(** X5.  When the reader raises [csv.Error], at the header or at any
    later record, [read_csv_file] raises a [ValueError] "Error parsing CSV
    file '...': ..." carrying the reader's message; the rows read before
    the error are not returned.  (A file whose first line is blank raises
    the error of the missing headers before the reader is asked for
    more.) *)
Theorem read_csv_file_wraps_csv_error fs filepath f msg :
  fs filepath = Opens f ->
  ending f = Some (csv_Error msg) ->
  (forall rest, records f <> [] :: rest) ->
  load fs filepath = Raise (ValueError (parse_error_message filepath msg)).
Proof.
  intros Hfs Hend Hfirst. rewrite load_cases, Hfs, read_opened_cases, Hend.
  destruct (records f) as [| [| name names] recs]; try reflexivity.
  exfalso. now apply (Hfirst recs).
Qed.

Lemma read_csv_file_wraps_csv_error_witness :
  let f := mkCsv [["country"; "gdp"]; ["USA"; "1"]]
                 (Some (csv_Error "field larger than field limit (131072)")) in
  let fs := fun _ : string => Opens f in
  fs "big.csv" = Opens f
  /\ ending f = Some (csv_Error "field larger than field limit (131072)")
  /\ (forall rest, records f <> [] :: rest)
  /\ load fs "big.csv"
     = Raise (ValueError
                "Error parsing CSV file 'big.csv': field larger than field limit (131072)").
Proof.
  cbv zeta.
  assert (Hfirst : forall rest : list (list string),
             records (mkCsv [["country"; "gdp"]; ["USA"; "1"]]
                        (Some (csv_Error "field larger than field limit (131072)")))
             <> [] :: rest) by (intros rest; discriminate).
  split; [reflexivity |]. split; [reflexivity |]. split; [exact Hfirst |].
  exact (read_csv_file_wraps_csv_error
           (fun _ => Opens (mkCsv [["country"; "gdp"]; ["USA"; "1"]]
                       (Some (csv_Error "field larger than field limit (131072)"))))
           "big.csv" _ _ eq_refl eq_refl Hfirst).
Defined.

(** X6.  A file without any record (an empty file) and a file whose first
    line is blank make [read_csv_file] raise "CSV file '...' has no
    headers". *)
Theorem read_csv_file_no_headers fs filepath f :
  fs filepath = Opens f ->
  (records f = [] /\ ending f = None) \/ (exists rest, records f = [] :: rest) ->
  load fs filepath = Raise (ValueError (no_headers_message filepath)).
Proof.
  intros Hfs H. rewrite load_cases, Hfs, read_opened_cases.
  destruct H as [[-> ->] | [rest ->]]; reflexivity.
Qed.

Lemma read_csv_file_no_headers_witness :
  let fs := fun _ : string => Opens (csv_reader EmptyString) in
  fs "empty.csv" = Opens (csv_reader EmptyString)
  /\ ((records (csv_reader EmptyString) = [] /\ ending (csv_reader EmptyString) = None)
      \/ (exists rest, records (csv_reader EmptyString) = [] :: rest))
  /\ load fs "empty.csv" = Raise (ValueError "CSV file 'empty.csv' has no headers").
Proof.
  cbv zeta.
  assert (H : (records (csv_reader EmptyString) = []
               /\ ending (csv_reader EmptyString) = None)
              \/ (exists rest, records (csv_reader EmptyString) = [] :: rest))
    by (left; split; reflexivity).
  split; [reflexivity |]. split; [exact H |].
  exact (read_csv_file_no_headers (fun _ => Opens (csv_reader EmptyString))
           "empty.csv" _ eq_refl H).
Defined.

(** ** The keys of the rows a file gives *)

Lemma fold_set_str_get_inv (pairs : list (string * string))
    (d : PyDict.dict (V := cell)) k :
  PyDict.get String.eqb
    (fold_left (fun d '(k, v) => PyDict.set String.eqb d k (Str v)) pairs d) k
  <> None ->
  In k (map fst pairs) \/ PyDict.get String.eqb d k <> None.
Proof.
  revert d. induction pairs as [| [k0 v0] pairs IH]; intros d; simpl.
  - now right.
  - intros H. destruct (IH _ H) as [Hin | Hget]; [left; now right |].
    destruct (string_dec k0 k) as [-> | Hne]; [left; now left |].
    right. now rewrite (get_set_neq String.eqb String.eqb_eq) in Hget.
Qed.

Lemma dict_zip_keys fieldnames record key :
  PyDict.get String.eqb (dict_zip fieldnames record) key <> None
  <-> In key (firstn (List.length record) fieldnames).
Proof.
  unfold dict_zip. rewrite <- combine_fst_firstn. split.
  - intros H. apply fold_set_str_get_inv in H.
    destruct H as [H | H]; [exact H | now elim H].
  - intros H. apply fold_set_str_contains. now left.
Qed.

(** The names bound in a row are the names of the header. *)
Lemma make_row_keys fieldnames record key :
  row_contains (make_row fieldnames record) key = true <-> In key fieldnames.
Proof.
  assert (Hc : forall r, row_contains r key = true <-> row_get r key <> None).
  { intros r. unfold row_contains, row_get, PyDict.contains.
    destruct (PyDict.get String.eqb (named r) key);
      split; congruence. }
  rewrite Hc. unfold make_row, row_get.
  destruct (List.length fieldnames <? List.length record)%nat eqn:H1.
  - apply Nat.ltb_lt in H1. cbn [named]. rewrite dict_zip_keys.
    rewrite firstn_all2 by lia. tauto.
  - apply Nat.ltb_ge in H1.
    destruct (List.length record <? List.length fieldnames)%nat eqn:H2.
    + cbn [named]. rewrite fold_set_none_get.
      assert (Hsplit : In key fieldnames <->
                In key (firstn (List.length record) fieldnames)
                \/ In key (skipn (List.length record) fieldnames)).
      { rewrite <- in_app_iff, firstn_skipn. tauto. }
      rewrite Hsplit, <- dict_zip_keys.
      destruct (in_dec string_dec key (skipn (List.length record) fieldnames));
        split; intros H; try tauto; try discriminate.
    + apply Nat.ltb_ge in H2. cbn [named]. rewrite dict_zip_keys.
      rewrite firstn_all2 by lia. tauto.
Qed.

Lemma kept_rows_keys fieldnames recs r key :
  In r (kept_rows fieldnames recs) ->
  (row_contains r key = true <-> In key fieldnames).
Proof.
  unfold kept_rows, dict_rows. rewrite filter_In, in_map_iff.
  intros [(record & <- & _) _]. apply make_row_keys.
Qed.

(** X7.  Every row [read_csv_file] returns has as keys exactly the names
    of the file's header: a record shorter or longer than the header
    neither loses nor adds a named column. *)
Theorem read_csv_file_rows_have_header_keys fs filepath f data :
  fs filepath = Opens f ->
  load fs filepath = Ok data ->
  exists fieldnames recs,
    records f = fieldnames :: recs
    /\ forall r key, In r data ->
         (row_contains r key = true <-> In key fieldnames).
Proof.
  intros Hfs Hload.
  destruct (load_ok_inv fs filepath data Hload)
    as (name & names & recs & Hfs' & -> & _).
  rewrite Hfs in Hfs'. injection Hfs' as ->.
  exists (name :: names), recs. split; [reflexivity |].
  intros r key Hr. now apply kept_rows_keys with (recs := recs).
Qed.

Lemma read_csv_file_rows_have_header_keys_witness :
  sample_fs "a.csv" = Opens (csv_reader sample_text)
  /\ load sample_fs "a.csv" = Ok [row_of "US" "1"; row_of "X" EmptyString]
  /\ exists fieldnames recs,
       records (csv_reader sample_text) = fieldnames :: recs
       /\ forall r key, In r [row_of "US" "1"; row_of "X" EmptyString] ->
            (row_contains r key = true <-> In key fieldnames).
Proof.
  assert (Hload : load sample_fs "a.csv" = Ok [row_of "US" "1"; row_of "X" EmptyString])
    by (vm_compute; reflexivity).
  split; [reflexivity |]. split; [exact Hload |].
  exact (read_csv_file_rows_have_header_keys sample_fs "a.csv" _ _ eq_refl Hload).
Defined.

(** ** Loading, then [generate] *)

Lemma row_error_with_columns r e :
  lacks_column r = false ->
  row_error r = Some e ->
  exists raw, e = ValueError (invalid_message raw).
Proof.
  unfold lacks_column, row_error, row_contains, row_get, PyDict.contains.
  destruct (PyDict.get String.eqb (named r) "country"); [| discriminate].
  destruct (PyDict.get String.eqb (named r) "gdp") as [raw |]; [| discriminate].
  intros _. destruct (py_float raw); [discriminate |].
  intros H. injection H as <-. now exists raw.
Qed.

(** X8.  The header of a file decides whether [generate] can raise the
    error of the missing columns on the rows loaded from it.  With
    [country] and [gdp] in the header no row lacks a column, and
    [generate] returns or raises "Invalid GDP value: ..."; with one of
    them absent [generate] raises "CSV must contain 'country' and 'gdp'
    columns" at the first row. *)
Theorem header_decides_schema_error fs filepath f fieldnames recs data :
  fs filepath = Opens f ->
  records f = fieldnames :: recs ->
  load fs filepath = Ok data ->
  (In "country" fieldnames /\ In "gdp" fieldnames ->
     (forall r, In r data -> lacks_column r = false)
     /\ ((exists rep, generate data = Ok rep)
         \/ exists raw, generate data = Raise (ValueError (invalid_message raw))))
  /\ (~ (In "country" fieldnames /\ In "gdp" fieldnames) ->
      generate data = Raise (ValueError schema_message)).
Proof.
  intros Hfs Hrecs Hload.
  destruct (load_ok_inv fs filepath data Hload)
    as (name & names & recs' & Hfs' & Hdata & Hne).
  rewrite Hfs in Hfs'. injection Hfs' as ->. cbn [records] in Hrecs.
  injection Hrecs as <- <-.
  assert (Hkeys : forall r key, In r data ->
            (row_contains r key = true <-> In key (name :: names))).
  { intros r key Hr. rewrite Hdata in Hr. now apply kept_rows_keys with (recs := recs'). }
  split.
  - intros [Hc Hg].
    assert (Hcols : forall r, In r data -> lacks_column r = false).
    { intros r Hr. unfold lacks_column.
      rewrite (proj2 (Hkeys r "country" Hr) Hc), (proj2 (Hkeys r "gdp" Hr) Hg).
      reflexivity. }
    split; [exact Hcols |].
    pose proof (generate_total data) as Htotal.
    destruct (first_error data) as [e |] eqn:Hfirst; [| now left].
    right. destruct (first_error_split data e Hfirst)
      as (pre & r & post & Heq & _ & Hr).
    assert (Hin : In r data) by (rewrite Heq; apply in_or_app; right; now left).
    destruct (row_error_with_columns r e (Hcols r Hin) Hr) as [raw ->].
    now exists raw.
  - intros Hnot. destruct data as [| r data]; [congruence |].
    apply (generate_raises_at [] r data); [intros r' [] |].
    apply lacks_column_error. unfold lacks_column.
    destruct (row_contains r "country") eqn:Hc; [| reflexivity].
    destruct (row_contains r "gdp") eqn:Hg; [| reflexivity].
    exfalso. apply Hnot. split.
    + apply (Hkeys r "country"); [now left | exact Hc].
    + apply (Hkeys r "gdp"); [now left | exact Hg].
Qed.

Lemma header_decides_schema_error_witness :
  let text := "name,value" ++ nl ++ "USA,25462" ++ nl in
  let fs := fun _ : string => Opens (csv_reader text) in
  fs "wrong.csv" = Opens (csv_reader text)
  /\ records (csv_reader text) = ["name"; "value"] :: [["USA"; "25462"]]
  /\ load fs "wrong.csv" = Ok [make_row ["name"; "value"] ["USA"; "25462"]]
  /\ ~ (In "country" ["name"; "value"] /\ In "gdp" ["name"; "value"])
  /\ generate [make_row ["name"; "value"] ["USA"; "25462"]]
     = Raise (ValueError schema_message).
Proof.
  cbv zeta.
  assert (Hrecs : records (csv_reader ("name,value" ++ nl ++ "USA,25462" ++ nl))
                  = ["name"; "value"] :: [["USA"; "25462"]])
    by (vm_compute; reflexivity).
  assert (Hload : load (fun _ => Opens (csv_reader ("name,value" ++ nl ++ "USA,25462" ++ nl)))
                    "wrong.csv" = Ok [make_row ["name"; "value"] ["USA"; "25462"]])
    by (vm_compute; reflexivity).
  assert (Hnot : ~ (In "country" ["name"; "value"] /\ In "gdp" ["name"; "value"])).
  { intros [[H | [H | []]] _]; discriminate H. }
  split; [reflexivity |]. split; [exact Hrecs |]. split; [exact Hload |].
  split; [exact Hnot |].
  exact (proj2 (header_decides_schema_error _ "wrong.csv" _ _ _ _ eq_refl Hrecs Hload)
           Hnot).
Defined.

(** ** [read_csv_files]: what it returns and what it raises *)

Lemma read_each_result fs filepaths :
  forall all_data errors t,
    match fst (read_each fs filepaths all_data errors t) with
    | Ok st =>
        st = ((all_data ++ flat_map (rows_of fs) filepaths)%list,
              (errors ++ flat_map (fun p => option_list (failure_message fs p))
                           filepaths)%list)
        /\ (forall p e, In p filepaths -> load fs p = Raise e ->
                        is_Exception e = true)
    | Raise e => is_Exception e = false
    end.
Proof.
  induction filepaths as [| p rest IH]; intros all_data errors t.
  - simpl. rewrite !app_nil_r. split; [reflexivity | intros p e []].
  - cbn [read_each flat_map]. unfold io_bind at 1. unfold try_except.
    unfold io_bind at 1. rewrite read_csv_file_run.
    unfold failure_message at 1, rows_of at 1.
    destruct (load fs p) as [data | e] eqn:Hload.
    + unfold ret. cbn [fst snd].
      specialize (IH (all_data ++ data)%list errors (t ++ [EvOpen p])%list).
      destruct (fst (read_each fs rest _ _ _)) as [st | e']; [| exact IH].
      destruct IH as [-> Hexc]. cbn [option_list app]. split.
      * now rewrite <- app_assoc.
      * intros q e [<- | Hq] Hq'; [congruence | now apply (Hexc q)].
    + destruct e as [m | m | m | m | | c]; cbn [is_Exception]; unfold ret, raise;
        cbn [fst snd]; try reflexivity.
      all: match goal with
           | |- context [read_each _ _ ?a ?b ?c] =>
               specialize (IH a b c);
               destruct (fst (read_each _ _ a b c)) as [st | e'];
               [| exact IH]
           end.
      all: destruct IH as [-> Hexc]; cbn [option_list app]; split;
        [now rewrite <- !app_assoc
        | intros q e [<- | Hq] Hq';
          [rewrite Hload in Hq'; injection Hq' as <-; reflexivity
          | now apply (Hexc q)]].
Qed.

Lemma load_all_cases fs filepaths :
  load_all fs filepaths =
  match fst (read_each fs filepaths [] [] []) with
  | Ok st =>
      match snd st with
      | [] => Ok (fst st)
      | errors => Raise (ValueError (join nl errors))
      end
  | Raise e => Raise e
  end.
Proof.
  unfold load_all, read_csv_files, io_bind.
  destruct (read_each fs filepaths [] [] []) as [[st | e] t]; [| reflexivity].
  cbn [fst]. destruct (snd st); reflexivity.
Qed.

Lemma failure_message_none fs p :
  failure_message fs p = None <-> exists data, load fs p = Ok data.
Proof.
  unfold failure_message. destruct (load fs p) as [data | e].
  - split; [now exists data | reflexivity].
  - split; [destruct e; discriminate | intros [data H]; discriminate].
Qed.

Lemma messages_nil fs filepaths :
  flat_map (fun p => option_list (failure_message fs p)) filepaths = []
  <-> forall p, In p filepaths -> exists data, load fs p = Ok data.
Proof.
  induction filepaths as [| p rest IH]; simpl.
  - split; [intros _ p [] | reflexivity].
  - split.
    + intros H. apply app_eq_nil in H. destruct H as [Hp Hrest].
      intros q [<- | Hq]; [| now apply IH].
      apply failure_message_none.
      destruct (failure_message fs p); [discriminate | reflexivity].
    + intros H.
      assert (Hp : failure_message fs p = None)
        by (apply failure_message_none, H; now left).
      rewrite Hp. simpl. apply IH. intros q Hq. apply H. now right.
Qed.

(** [read_csv_files] returns exactly when every path loads, and then it
    returns the rows of the files one after the other. *)
Lemma load_all_ok_iff fs filepaths data :
  load_all fs filepaths = Ok data <->
  (forall p, In p filepaths -> exists d, load fs p = Ok d)
  /\ data = flat_map (rows_of fs) filepaths.
Proof.
  rewrite load_all_cases.
  pose proof (read_each_result fs filepaths [] [] []) as Hres.
  destruct (fst (read_each fs filepaths [] [] [])) as [st | e] eqn:Heach.
  - destruct Hres as [-> _]. cbn [fst snd app].
    destruct (flat_map (fun p => option_list (failure_message fs p)) filepaths)
      as [| m ms] eqn:Hmsgs.
    + pose proof (proj1 (messages_nil fs filepaths) Hmsgs) as Hall. split.
      * intros H. injection H as <-. now split.
      * intros [_ ->]. reflexivity.
    + split; [discriminate |]. intros [Hall _].
      pose proof (proj2 (messages_nil fs filepaths) Hall) as Hnil. congruence.
  - split; [discriminate |]. intros [Hall _]. exfalso.
    assert (Hexc : forall p e', In p filepaths -> load fs p = Raise e' ->
                     is_Exception e' = true).
    { intros p e' Hp He'. destruct (Hall p Hp) as [d Hd]. congruence. }
    pose proof (read_each_run fs filepaths Hexc [] [] []) as Hrun.
    apply (f_equal fst) in Hrun. cbn [fst] in Hrun.
    rewrite Hrun in Heach. discriminate Heach.
Qed.

(** X9.  The only exception of class [Exception] that leaves
    [read_csv_files] is a [ValueError]: the [FileNotFoundError] of a
    missing file, and every other failure of a load, is turned into a line
    of the combined message.  What else leaves it (an interrupt, an exit)
    is not of class [Exception]. *)
Theorem read_csv_files_raises_value_error fs filepaths e :
  load_all fs filepaths = Raise e ->
  (exists msg, e = ValueError msg) \/ is_Exception e = false.
Proof.
  rewrite load_all_cases.
  pose proof (read_each_result fs filepaths [] [] []) as Hres.
  destruct (fst (read_each fs filepaths [] [] [])) as [st | e'].
  - destruct (snd st) as [| m ms]; [discriminate |].
    intros H. injection H as <-. left. eexists. reflexivity.
  - intros H. injection H as <-. now right.
Qed.

Lemma read_csv_files_raises_value_error_witness :
  load_all sample_fs ["missing.csv"] = Raise (ValueError "File not found: missing.csv")
  /\ ((exists msg, ValueError "File not found: missing.csv" = ValueError msg)
      \/ is_Exception (ValueError "File not found: missing.csv") = false).
Proof.
  assert (H : load_all sample_fs ["missing.csv"]
              = Raise (ValueError "File not found: missing.csv"))
    by (vm_compute; reflexivity).
  split; [exact H | exact (read_csv_files_raises_value_error _ _ _ H)].
Defined.

(** X10.  When [read_csv_files] returns, every path was loaded and gave at
    least one row, and its rows are in the result; so the result is empty
    only when no path was given. *)
Theorem read_csv_files_data_nonempty fs filepaths data :
  load_all fs filepaths = Ok data ->
  (forall p, In p filepaths ->
     exists d, load fs p = Ok d /\ d <> [] /\ incl d data)
  /\ (data = [] <-> filepaths = []).
Proof.
  intros Hload. apply load_all_ok_iff in Hload. destruct Hload as [Hall ->].
  assert (Hrows : forall p, In p filepaths ->
            exists d, load fs p = Ok d /\ d <> []
                      /\ incl d (flat_map (rows_of fs) filepaths)).
  { intros p Hp. destruct (Hall p Hp) as [d Hd]. exists d.
    split; [exact Hd |]. split.
    - destruct (load_ok_inv fs p d Hd) as (_ & _ & _ & _ & _ & Hne). exact Hne.
    - intros r Hr. apply in_flat_map. exists p. split; [exact Hp |].
      unfold rows_of. now rewrite Hd. }
  split; [exact Hrows |]. split.
  - intros Hnil. destruct filepaths as [| p rest]; [reflexivity |]. exfalso.
    destruct (Hrows p (or_introl eq_refl)) as (d & _ & Hne & Hincl).
    destruct d as [| r d]; [congruence |].
    specialize (Hincl r (or_introl eq_refl)). rewrite Hnil in Hincl. exact Hincl.
  - intros ->. reflexivity.
Qed.

Lemma read_csv_files_data_nonempty_witness :
  load_all sample_fs ["a.csv"; "a.csv"]
  = Ok [row_of "US" "1"; row_of "X" EmptyString;
        row_of "US" "1"; row_of "X" EmptyString]
  /\ ([row_of "US" "1"; row_of "X" EmptyString;
       row_of "US" "1"; row_of "X" EmptyString] = []
      <-> ["a.csv"; "a.csv"] = @nil string).
Proof.
  assert (H : load_all sample_fs ["a.csv"; "a.csv"]
              = Ok [row_of "US" "1"; row_of "X" EmptyString;
                    row_of "US" "1"; row_of "X" EmptyString])
    by (vm_compute; reflexivity).
  split; [exact H | exact (proj2 (read_csv_files_data_nonempty _ _ _ H))].
Defined.

(** X11.  Loading two lists of paths one after the other is loading them
    separately: [read_csv_files] returns on the joined list exactly when
    it returns on both, and then with the rows of the first list followed
    by the rows of the second. *)
Theorem read_csv_files_app fs ps qs data :
  load_all fs (ps ++ qs) = Ok data <->
  exists d1 d2,
    load_all fs ps = Ok d1 /\ load_all fs qs = Ok d2 /\ data = (d1 ++ d2)%list.
Proof.
  rewrite load_all_ok_iff. split.
  - intros [Hall ->].
    exists (flat_map (rows_of fs) ps), (flat_map (rows_of fs) qs).
    split; [| split].
    + apply load_all_ok_iff. split; [| reflexivity].
      intros p Hp. apply Hall. apply in_or_app. now left.
    + apply load_all_ok_iff. split; [| reflexivity].
      intros p Hp. apply Hall. apply in_or_app. now right.
    + apply flat_map_app.
  - intros (d1 & d2 & H1 & H2 & ->).
    apply load_all_ok_iff in H1. apply load_all_ok_iff in H2.
    destruct H1 as [Hp ->], H2 as [Hq ->]. split.
    + intros p Hin. apply in_app_or in Hin. destruct Hin; auto.
    + symmetry. apply flat_map_app.
Qed.

Lemma read_csv_files_app_witness :
  (exists d1 d2,
     load_all sample_fs ["a.csv"] = Ok d1 /\ load_all sample_fs ["a.csv"] = Ok d2
     /\ [row_of "US" "1"; row_of "X" EmptyString;
         row_of "US" "1"; row_of "X" EmptyString] = (d1 ++ d2)%list)
  /\ load_all sample_fs (["a.csv"] ++ ["a.csv"])
     = Ok [row_of "US" "1"; row_of "X" EmptyString;
           row_of "US" "1"; row_of "X" EmptyString].
Proof.
  assert (H : exists d1 d2,
     load_all sample_fs ["a.csv"] = Ok d1 /\ load_all sample_fs ["a.csv"] = Ok d2
     /\ [row_of "US" "1"; row_of "X" EmptyString;
         row_of "US" "1"; row_of "X" EmptyString] = (d1 ++ d2)%list).
  { exists [row_of "US" "1"; row_of "X" EmptyString],
      [row_of "US" "1"; row_of "X" EmptyString].
    split; [vm_compute; reflexivity |]. split; [vm_compute; reflexivity |].
    reflexivity. }
  split; [exact H |].
  exact (proj2 (read_csv_files_app sample_fs ["a.csv"] ["a.csv"] _) H).
Defined.

(** ** The registry *)

(** X12.  [register] and [create] on a registry in any state: a class is
    found under the name it was registered with, also when the name was
    taken before; registering a name changes nothing for the other names;
    and [create] fails exactly for the names that are not registered, with
    a [ValueError] "Unknown report '...'. Available reports: ..." that
    lists the registered names in the order of their registration. *)
Theorem register_then_create reporters name reporter_class :
  create_in (register name reporter_class reporters) name = Ok reporter_class
  /\ (forall other, other <> name ->
        PyDict.get String.eqb (register name reporter_class reporters) other
        = PyDict.get String.eqb reporters other)
  /\ (forall other,
        ~ In other (PyDict.keys reporters) <->
        create_in reporters other
        = Raise (ValueError ("Unknown report '" ++ other
                               ++ "'. Available reports: "
                               ++ join ", " (PyDict.keys reporters))))
  /\ (PyDict.keys (register name reporter_class reporters) =
      if PyDict.contains String.eqb reporters name
      then PyDict.keys reporters
      else (PyDict.keys reporters ++ [name])%list).
Proof.
  unfold create_in, register. split; [| split; [| split]].
  - now rewrite (get_set_eq String.eqb String.eqb_eq).
  - intros other Hne. apply (get_set_neq String.eqb String.eqb_eq). congruence.
  - intros other. rewrite <- (get_None_keys String.eqb String.eqb_eq).
    destruct (PyDict.get String.eqb reporters other); split;
      try reflexivity; discriminate.
  - unfold PyDict.contains.
    destruct (PyDict.get String.eqb reporters name) as [c |] eqn:Hget.
    + now apply (keys_set_present String.eqb) with (w := c).
    + now apply (keys_set_absent String.eqb).
Qed.

(** X13.  On the registry as the module loads it, [create] returns the
    average-gdp reporter for the name [average-gdp] and fails for every
    other name with "Unknown report '...'. Available reports:
    average-gdp". *)
Theorem create_on_loaded_registry
    (tabulate : list (cell * string) -> list string -> string -> string)
    (name : string) :
  create tabulate name = create_in (_reporters tabulate) name
  /\ (name = "average-gdp" ->
      create tabulate name = Ok (AverageGDPReporter tabulate))
  /\ (name <> "average-gdp" ->
      create tabulate name
      = Raise (ValueError ("Unknown report '" ++ name
                             ++ "'. Available reports: average-gdp"))).
Proof.
  split; [reflexivity |]. split.
  - intros ->. reflexivity.
  - intros Hne. unfold create, _reporters, register. cbn [PyDict.set PyDict.get].
    destruct (String.eqb name "average-gdp") eqn:E.
    + apply String.eqb_eq in E. contradiction.
    + reflexivity.
Qed.

Lemma create_on_loaded_registry_witness :
  "invalid-report" <> "average-gdp"
  /\ create bars "invalid-report"
     = Raise (ValueError
                "Unknown report 'invalid-report'. Available reports: average-gdp").
Proof.
  assert (H : "invalid-report" <> "average-gdp") by discriminate.
  split; [exact H |].
  exact (proj2 (proj2 (create_on_loaded_registry bars "invalid-report")) H).
Defined.

(** ** [parse_arguments] *)

Lemma parse_tokens_files_nonempty choices args :
  forall fs_ rp c extras ns,
    (forall f, fs_ = Some f -> f <> []) ->
    parse_tokens choices args fs_ rp c extras = Parsed ns ->
    files ns <> [].
Proof.
  assert (Hfinish : forall fs_ rp extras ns,
            (forall f, fs_ = Some f -> f <> []) ->
            finish fs_ rp extras = Parsed ns -> files ns <> []).
  { intros fs_ rp extras ns Hfs. unfold finish.
    destruct fs_ as [f |], rp as [r |], extras; try discriminate.
    intros H. injection H as <-. simpl. now apply Hfs. }
  induction args as [| a args IH]; intros fs_ rp c extras ns Hfs;
    cbn [parse_tokens].
  - destruct c as [| [| v vals] |]; try discriminate.
    + now apply Hfinish.
    + apply Hfinish. intros f Hf. injection Hf as <-. discriminate.
  - destruct (is_option_string a).
    + assert (Hfs' : c <> InFiles [] ->
                forall f,
                  match c with InFiles vals => Some vals | _ => fs_ end = Some f ->
                  f <> []).
      { intros Hne f Hf. destruct c as [| vals |]; try now apply Hfs.
        injection Hf as <-. congruence. }
      destruct c as [| [| v vals] |]; try discriminate.
      all: destruct (String.eqb a "--files");
        [apply IH; apply Hfs'; discriminate |].
      all: destruct (String.eqb a "--report");
        [apply IH; apply Hfs'; discriminate |].
      all: destruct (String.eqb a "-h" || String.eqb a "--help");
        [discriminate |].
      all: apply IH; apply Hfs'; discriminate.
    + destruct c as [| vals |].
      * now apply IH.
      * now apply IH.
      * destruct (existsb (String.eqb a) choices); [| discriminate].
        now apply IH.
Qed.

Lemma parse_args_files_nonempty choices args ns :
  parse_args choices args = Parsed ns -> files ns <> [].
Proof.
  unfold parse_args. apply parse_tokens_files_nonempty.
  intros ? H. discriminate H.
Qed.

Lemma filter_is_open_prints t text1 text2 :
  filter is_open ((t ++ [EvStderr text1]) ++ [EvStderr text2]) = filter is_open t
  /\ filter is_open (t ++ [EvStdout text1]) = filter is_open t.
Proof. rewrite !filter_app. simpl. now rewrite !app_nil_r. Qed.

(** X14.  With the program's name in [sys.argv], [parse_arguments] either
    returns, and then it has printed nothing, at least one file is given
    and the report is a registered name; or it ends the process with
    [SystemExit(2)] or [SystemExit(0)].  In no case does it open a file.
    (With an empty [sys.argv] the parser cannot be built, and nothing is
    said.) *)
Theorem parse_arguments_outcome
    (tabulate : list (cell * string) -> list string -> string -> string)
    (argv : list string) (t : list event) :
  argv <> [] ->
  match parse_arguments tabulate argv t with
  | (Ok ns, t') =>
      t' = t
      /\ files ns <> []
      /\ In (report ns) (PyDict.keys (_reporters tabulate))
  | (Raise e, t') =>
      (e = SystemExit 2 \/ e = SystemExit 0)
      /\ filter is_open t' = filter is_open t
  end.
Proof.
  intros _. unfold parse_arguments.
  destruct (parse_args (PyDict.keys (_reporters tabulate)) (tl argv))
    as [ns | message |] eqn:Hparse.
  - unfold ret. split; [reflexivity |].
    split; [exact (parse_args_files_nonempty _ _ _ Hparse) |].
    apply (parse_tokens_report (PyDict.keys (_reporters tabulate)) (tl argv)
             None None Top [] ns); [| exact Hparse].
    intros r H. discriminate H.
  - unfold io_bind, emit, sys_exit, raise. split; [now left |].
    apply filter_is_open_prints.
  - unfold io_bind, emit, sys_exit, raise. split; [now right |].
    apply filter_is_open_prints with (text2 := EmptyString).
Qed.

Lemma parse_arguments_outcome_witness :
  let argv := ["macro_analysis.py"; "--files"; "a.csv"; "b.csv";
               "--report"; "average-gdp"] in
  argv <> []
  /\ parse_arguments bars argv [] = (Ok (mkArgs ["a.csv"; "b.csv"] "average-gdp"), [])
  /\ ["a.csv"; "b.csv"] <> []
  /\ In "average-gdp" (PyDict.keys (_reporters bars)).
Proof.
  cbv zeta.
  assert (Hargv : ["macro_analysis.py"; "--files"; "a.csv"; "b.csv";
                   "--report"; "average-gdp"] <> []) by discriminate.
  split; [exact Hargv |]. split; [reflexivity |].
  exact (proj2 (parse_arguments_outcome bars _ [] Hargv)).
Defined.

(** ** [main]: the whole run *)

Lemma main_help tabulate fs argv :
  parse_args (PyDict.keys (_reporters tabulate)) (tl argv) = HelpRequested ->
  run tabulate fs argv =
    (0%Z, [EvStdout (usage (hd EmptyString argv) (PyDict.keys (_reporters tabulate)))]).
Proof.
  intros Hparse. unfold run, main, main_try, parse_arguments, try_except.
  unfold io_bind at 1. rewrite Hparse. reflexivity.
Qed.

Lemma generate_raises_value_error data e :
  generate data = Raise e -> exists msg, e = ValueError msg.
Proof.
  intros H. pose proof (generate_total data) as Htotal.
  destruct (first_error data) as [e0 |] eqn:Hfirst.
  - assert (e = e0) by congruence. subst e0.
    destruct (first_error_split data e Hfirst) as (_ & r & _ & _ & _ & Hr).
    destruct (row_error_kinds r e Hr) as [-> | (raw & _ & _ & ->)];
      eexists; reflexivity.
  - destruct Htotal as [rep Hrep]. congruence.
Qed.

Lemma read_each_raise_source fs filepaths :
  forall all_data errors t e,
    fst (read_each fs filepaths all_data errors t) = Raise e ->
    exists p, In p filepaths /\ load fs p = Raise e /\ is_Exception e = false.
Proof.
  induction filepaths as [| p rest IH]; intros all_data errors t e.
  - simpl. discriminate.
  - cbn [read_each]. unfold io_bind at 1. unfold try_except.
    unfold io_bind at 1. rewrite read_csv_file_run.
    destruct (load fs p) as [data | e'] eqn:Hload.
    + unfold ret. cbn [fst snd]. intros H.
      destruct (IH _ _ _ _ H) as (q & Hq & Hq').
      exists q. split; [now right | exact Hq'].
    + destruct e' as [m | m | m | m | | c]; cbn [is_Exception]; unfold ret, raise;
        cbn [fst snd]; intros H.
      1-4: destruct (IH _ _ _ _ H) as (q & Hq & Hq');
           exists q; (split; [now right | exact Hq']).
      * injection H as <-. exists p. repeat split; [now left | exact Hload].
      * injection H as <-. exists p. repeat split; [now left | exact Hload].
Qed.

Lemma load_all_raise_source fs filepaths e :
  load_all fs filepaths = Raise e ->
  (exists msg, e = ValueError msg)
  \/ exists p, In p filepaths /\ load fs p = Raise e /\ is_Exception e = false.
Proof.
  rewrite load_all_cases.
  destruct (fst (read_each fs filepaths [] [] [])) as [st | e'] eqn:Heach.
  - destruct (snd st) as [| m ms]; [discriminate |].
    intros H. injection H as <-. left. eexists. reflexivity.
  - intros H. injection H as <-. right.
    now apply (read_each_raise_source fs filepaths [] [] []).
Qed.

(** X15.  Once the arguments are parsed and the files are loaded, the two
    guards [main] still has cannot fire: the data are not empty, and
    [create] finds the reporter. *)
Theorem main_guards_never_fire
    (tabulate : list (cell * string) -> list string -> string -> string)
    (fs : string -> opened) (argv : list string) args data :
  parse_args (PyDict.keys (_reporters tabulate)) (tl argv) = Parsed args ->
  load_all fs (files args) = Ok data ->
  data <> []
  /\ create tabulate (report args) = Ok (AverageGDPReporter tabulate).
Proof.
  intros Hparse Hload. split.
  - pose proof (parse_args_files_nonempty _ _ _ Hparse) as Hne.
    apply load_all_ok_iff in Hload. destruct Hload as [Hall ->].
    destruct (files args) as [| p rest]; [congruence |].
    destruct (Hall p (or_introl eq_refl)) as [d Hd].
    destruct (load_ok_inv fs p d Hd) as (_ & _ & _ & _ & _ & Hd').
    cbn [flat_map]. unfold rows_of at 1. rewrite Hd.
    destruct d; [congruence | discriminate].
  - apply create_registered.
    apply (parse_tokens_report (PyDict.keys (_reporters tabulate)) (tl argv)
             None None Top [] args); [| exact Hparse].
    intros r H. discriminate H.
Qed.

Lemma main_guards_never_fire_witness :
  let argv := ["macro_analysis.py"; "--files"; "a.csv"; "--report"; "average-gdp"] in
  parse_args (PyDict.keys (_reporters bars)) (tl argv)
    = Parsed (mkArgs ["a.csv"] "average-gdp")
  /\ load_all sample_fs ["a.csv"] = Ok [row_of "US" "1"; row_of "X" EmptyString]
  /\ [row_of "US" "1"; row_of "X" EmptyString] <> []
  /\ create bars "average-gdp" = Ok (AverageGDPReporter bars).
Proof.
  cbv zeta.
  assert (Hload : load_all sample_fs ["a.csv"]
                  = Ok [row_of "US" "1"; row_of "X" EmptyString])
    by (vm_compute; reflexivity).
  split; [reflexivity |]. split; [exact Hload |].
  exact (main_guards_never_fire bars sample_fs
           ["macro_analysis.py"; "--files"; "a.csv"; "--report"; "average-gdp"]
           (mkArgs ["a.csv"] "average-gdp") _ eq_refl Hload).
Defined.

Lemma load_sample_fs_no_exit p c : load sample_fs p <> Raise (SystemExit c).
Proof.
  destruct (String.eqb p "a.csv") eqn:Hp.
  - apply String.eqb_eq in Hp. subst p. vm_compute. discriminate.
  - rewrite load_cases. unfold sample_fs. rewrite Hp. discriminate.
Qed.

(** X16.  Unless reading a file itself ends the process with
    [SystemExit], the exit status of a run is 0, 1, 2 or 130, whatever the
    command line and the files. *)
Theorem main_exit_code_range
    (tabulate : list (cell * string) -> list string -> string -> string)
    (fs : string -> opened) (argv : list string) :
  (forall p c, load fs p <> Raise (SystemExit c)) ->
  In (fst (run tabulate fs argv)) [0; 1; 2; 130]%Z.
Proof.
  intros Hexit.
  destruct (parse_args (PyDict.keys (_reporters tabulate)) (tl argv))
    as [args | message |] eqn:Hparse.
  - pose proof (main_loaded tabulate fs argv args Hparse) as Hrun.
    cbv zeta in Hrun.
    destruct (load_all fs (files args)) as [data | e] eqn:Hload.
    + destruct data as [| r0 data].
      * rewrite Hrun. cbn. tauto.
      * destruct (generate (r0 :: data)) as [rd | e] eqn:Hgen.
        -- rewrite Hrun. cbn. tauto.
        -- destruct (generate_raises_value_error _ _ Hgen) as [msg ->].
           rewrite Hrun. cbn. tauto.
    + destruct (load_all_raise_source fs (files args) e Hload)
        as [[msg ->] | (p & _ & Hp & Hkind)].
      * rewrite Hrun. cbn. tauto.
      * destruct e as [m | m | m | m | | c]; try discriminate Hkind.
        -- rewrite Hrun. cbn. tauto.
        -- now elim (Hexit p c).
  - rewrite (main_usage_error tabulate fs argv message Hparse). cbn. tauto.
  - rewrite (main_help tabulate fs argv Hparse). cbn. tauto.
Qed.

Lemma main_exit_code_range_witness :
  (forall p c, load sample_fs p <> Raise (SystemExit c))
  /\ In (fst (run bars sample_fs
                ["macro_analysis.py"; "--files"; "a.csv"; "missing.csv";
                 "--report"; "average-gdp"])) [0; 1; 2; 130]%Z.
Proof.
  split; [exact load_sample_fs_no_exit |].
  exact (main_exit_code_range bars sample_fs _ load_sample_fs_no_exit).
Defined.

(** X17.  Standard output receives at most one write in a run, and only in
    a run that ends with status 0: either nothing is printed there, or the
    status is 0 and exactly one text is printed. *)
Theorem main_stdout_only_on_success
    (tabulate : list (cell * string) -> list string -> string -> string)
    (fs : string -> opened) (argv : list string) :
  stdout_of (snd (run tabulate fs argv)) = []
  \/ (fst (run tabulate fs argv) = 0%Z
      /\ exists text, stdout_of (snd (run tabulate fs argv)) = [EvStdout text]).
Proof.
  destruct (parse_args (PyDict.keys (_reporters tabulate)) (tl argv))
    as [args | message |] eqn:Hparse.
  - pose proof (main_loaded tabulate fs argv args Hparse) as Hrun.
    cbv zeta in Hrun.
    destruct (read_csv_files_trace fs (files args)) as [Hopens _].
    assert (Hquiet : forall reading,
              stdout_of (EvStderr reading :: opens_of fs (files args)) = []).
    { intros reading.
      rewrite <- (app_nil_r (opens_of fs (files args))).
      now rewrite stdout_of_run_prefix. }
    destruct (load_all fs (files args)) as [data | e] eqn:Hload.
    + destruct data as [| r0 data].
      * left. rewrite Hrun. cbn [snd].
        now rewrite stdout_of_run_prefix.
      * destruct (generate (r0 :: data)) as [rd | e] eqn:Hgen.
        -- right. rewrite Hrun. cbn [fst snd]. split; [reflexivity |].
           rewrite stdout_of_run_prefix by (reflexivity || exact Hopens).
           eexists. reflexivity.
        -- destruct (generate_raises_value_error _ _ Hgen) as [msg ->].
           left. rewrite Hrun. cbn [snd].
           now rewrite stdout_of_run_prefix.
    + left. destruct e; rewrite Hrun; cbn [snd];
        first [apply Hquiet | now rewrite stdout_of_run_prefix].
  - left. now rewrite (main_usage_error tabulate fs argv message Hparse).
  - right. rewrite (main_help tabulate fs argv Hparse).
    split; [reflexivity |]. eexists. reflexivity.
Qed.

Lemma read_each_opens fs filepaths :
  forall all_data errors,
  exists r k,
    (forall t, read_each fs filepaths all_data errors t
               = (r, (t ++ map EvOpen (firstn k filepaths))%list))
    /\ (k = List.length filepaths
        \/ exists e, r = Raise e /\ is_Exception e = false).
Proof.
  induction filepaths as [| p rest IH]; intros all_data errors.
  - exists (Ok (all_data, errors)), 0. split; [| now left].
    intros t. simpl. unfold ret. now rewrite app_nil_r.
  - assert (Hstep : forall st,
              exists r k,
                (forall t, read_each fs rest (fst st) (snd st) (t ++ [EvOpen p])%list
                           = (r, (t ++ map EvOpen (firstn k (p :: rest)))%list))
                /\ (k = List.length (p :: rest)
                    \/ exists e, r = Raise e /\ is_Exception e = false)).
    { intros st. destruct (IH (fst st) (snd st)) as (r & k & Hrun & Hk).
      exists r, (S k). split.
      - intros t. rewrite Hrun. cbn [firstn map]. now rewrite <- app_assoc.
      - destruct Hk as [-> | Hk]; [now left | now right]. }
    cbn [read_each]. unfold io_bind, try_except.
    destruct (load fs p) as [data | e] eqn:Hload.
    + destruct (Hstep ((all_data ++ data)%list, errors)) as (r & k & Hrun & Hk).
      exists r, k. split; [| exact Hk].
      intros t. rewrite read_csv_file_run, Hload. unfold ret. apply Hrun.
    + destruct e as [m | m | m | m | | c].
      1: destruct (Hstep (all_data, (errors ++ [not_found_message p])%list))
           as (r & k & Hrun & Hk).
      2: destruct (Hstep (all_data,
                          (errors ++ [read_error_message p (ValueError m)])%list))
           as (r & k & Hrun & Hk).
      3: destruct (Hstep (all_data,
                          (errors ++ [read_error_message p (csv_Error m)])%list))
           as (r & k & Hrun & Hk).
      4: destruct (Hstep (all_data,
                          (errors ++ [read_error_message p (Exception m)])%list))
           as (r & k & Hrun & Hk).
      1-4: exists r, k; (split; [| exact Hk]);
           intros t; rewrite read_csv_file_run, Hload; cbn [is_Exception];
           unfold ret; apply Hrun.
      * exists (Raise KeyboardInterrupt), 1.
        split; [| right; eexists; split; reflexivity].
        intros t. now rewrite read_csv_file_run, Hload.
      * exists (Raise (SystemExit c)), 1.
        split; [| right; eexists; split; reflexivity].
        intros t. now rewrite read_csv_file_run, Hload.
Qed.

Lemma opens_of_prefix fs filepaths :
  exists k,
    opens_of fs filepaths = map EvOpen (firstn k filepaths)
    /\ (k = List.length filepaths
        \/ exists e, load_all fs filepaths = Raise e /\ is_Exception e = false).
Proof.
  destruct (read_each_opens fs filepaths [] []) as (r & k & Hrun & Hk).
  exists k. unfold opens_of, load_all, read_csv_files, io_bind.
  rewrite Hrun. cbn [app]. split.
  - destruct r as [st | e]; [| reflexivity].
    destruct (snd st); reflexivity.
  - destruct Hk as [Hk | (e & -> & He)]; [now left |].
    right. exists e. now split.
Qed.

Lemma filter_is_open_opens paths :
  filter is_open (map EvOpen paths) = map EvOpen paths.
Proof. induction paths as [| p paths IH]; simpl; [reflexivity | now rewrite IH]. Qed.

(** X18.  The only files a run opens are those given after [--files]: it
    opens them in the order given, each once, and stops early only when
    reading one of them raises something that is not an [Exception]
    (an interrupt or an exit).  A usage error or a request for help opens
    no file. *)
Theorem main_opens_given_files_in_order
    (tabulate : list (cell * string) -> list string -> string -> string)
    (fs : string -> opened) (argv : list string) :
  match parse_args (PyDict.keys (_reporters tabulate)) (tl argv) with
  | Parsed args =>
      exists k,
        filter is_open (snd (run tabulate fs argv))
          = map EvOpen (firstn k (files args))
        /\ (k = List.length (files args)
            \/ exists e, load_all fs (files args) = Raise e
                         /\ is_Exception e = false)
  | _ => filter is_open (snd (run tabulate fs argv)) = []
  end.
Proof.
  destruct (parse_args (PyDict.keys (_reporters tabulate)) (tl argv))
    as [args | message |] eqn:Hparse.
  - pose proof (main_loaded tabulate fs argv args Hparse) as Hrun.
    cbv zeta in Hrun.
    destruct (opens_of_prefix fs (files args)) as (k & Hopens & Hk).
    exists k. split; [| exact Hk].
    rewrite Hopens in Hrun.
    assert (Hfilter : forall reading tail,
              filter is_open tail = [] ->
              filter is_open
                (EvStderr reading :: map EvOpen (firstn k (files args)) ++ tail)
              = map EvOpen (firstn k (files args))).
    { intros reading tail Htail. cbn [filter is_open].
      now rewrite filter_app, Htail, app_nil_r, filter_is_open_opens. }
    destruct (load_all fs (files args)) as [data | e] eqn:Hload.
    + destruct data as [| r0 data].
      * rewrite Hrun. cbn [snd]. now apply Hfilter.
      * destruct (generate (r0 :: data)) as [rd | e] eqn:Hgen.
        -- rewrite Hrun. cbn [snd]. now apply Hfilter.
        -- destruct (generate_raises_value_error _ _ Hgen) as [msg ->].
           rewrite Hrun. cbn [snd]. now apply Hfilter.
    + destruct e; rewrite Hrun; cbn [snd];
        first [now apply Hfilter
              | cbn [filter is_open]; apply filter_is_open_opens].
  - now rewrite (main_usage_error tabulate fs argv message Hparse).
  - now rewrite (main_help tabulate fs argv Hparse).
Qed.

(** ** [format]: the cells of the table *)

(** X19.  [format] builds one row of cells for each pair of the report, in
    the order of the report, holding the country as it is and the average
    through [.2f]: for a finite average a sign or none, digits, a point
    and exactly two digits; for NaN the text "nan", for an infinite
    average "inf" or "-inf". *)
Theorem table_data_two_decimals (rd : list report_row) :
  List.length (table_data rd) = List.length rd
  /\ forall i c avg,
       nth_error rd i = Some (c, avg) ->
       nth_error (table_data rd) i = Some (c, format_2f avg)
       /\ (is_finite avg = true -> two_decimals (format_2f avg))
       /\ (avg = S754_nan -> format_2f avg = "nan")
       /\ (forall s, avg = S754_infinity s -> format_2f avg = sign_str s ++ "inf").
Proof.
  unfold table_data. split; [apply length_map |].
  intros i c avg Hnth. split; [| split; [| split]].
  - now rewrite (map_nth_error _ _ _ Hnth).
  - destruct avg as [s | s | | s m e]; try discriminate; intros _;
      apply fixed2_two_decimals.
  - now intros ->.
  - now intros s ->.
Qed.

Lemma table_data_two_decimals_witness :
  nth_error format_test_report 2
    = Some (Str "Germany", S754_finite false 4550141954574254 (-40))
  /\ nth_error (table_data format_test_report) 2 = Some (Str "Germany", "4138.33")
  /\ two_decimals "4138.33".
Proof.
  assert (Hnth : nth_error format_test_report 2
                 = Some (Str "Germany", S754_finite false 4550141954574254 (-40)))
    by reflexivity.
  destruct (proj2 (table_data_two_decimals format_test_report) 2 _ _ Hnth)
    as (Hcell & Hfinite & _).
  split; [exact Hnth |]. split; [exact Hcell |]. exact (Hfinite eq_refl).
Defined.
